(** * beam-mysql-connector: a shallow embedding of the connector core

    The development follows the three source files:
    - [Client]  : beam_mysql/connector/client.py  (MySQLClient, _MySQLConnection)
    - [Source]  : beam_mysql/connector/source.py  (MySQLSource)
    - [IO]      : beam_mysql/connector/io.py      (ReadFromMySQL, _WriteToMySQLFn)

    Python objects are records, exceptions are an error result, and the
    database connection is an explicit log of the calls made on it. *)

From Stdlib Require Import Ascii String.
From stdpp Require Import base numbers list strings gmap.

Local Open Scope Z_scope.

(** ** Python values, truthiness, exceptions *)

(** The dynamically typed values that cross the interfaces modelled here. *)
#[local] Set Warnings "-register-all".
Inductive pyval : Type :=
  | PNone
  | PBool (b : bool)
  | PInt (n : Z)
  | PStr (s : string)
  | PList (l : list pyval)
  | PDict (d : list (string * pyval))
  | PObj (name : string).

(** Python's truth value testing. *)
Definition truthy (v : pyval) : bool :=
  match v with
  | PNone => false
  | PBool b => b
  | PInt n => negb (n =? 0)
  | PStr s => negb (String.eqb s "")
  | PList l => negb (Nat.eqb (length l) 0)
  | PDict d => negb (Nat.eqb (length d) 0)
  | PObj _ => true
  end.

(** [a or b] returns [a] when it is truthy and [b] otherwise. *)
Definition py_or (a b : pyval) : pyval := if truthy a then a else b.

(** Modelled from the spec: beam_mysql/connector/errors.py, which declares
    [MySQLClientError], is not among the sources; by the spec (4.1, 7) it is
    the domain error kind that driver errors are mapped to, a class of its own.

    The exception classes that occur.  [MySQLConnectorError] is the driver's
    [mysql.connector.errors.Error]; [TypeError] is what a call with the wrong
    number of arguments raises, [AttributeError] what reading an attribute
    that was never assigned raises.  Message texts are not modelled. *)
Inductive exn : Type :=
  | MySQLClientError
  | MySQLConnectorError
  | TypeError
  | AttributeError.

Inductive result (A : Type) : Type :=
  | Ok (a : A)
  | Raise (e : exn).
Arguments Ok {A} a.
Arguments Raise {A} e.

(** ** A state-and-exception monad

    A computation reads and updates a state of type [S] and either returns a
    value or raises; the state reached when an exception is raised is kept,
    as the mutations of a Python object are. *)
Definition M (S A : Type) : Type := S -> result A * S.

Definition ret {S A} (a : A) : M S A := fun s => (Ok a, s).

Definition raise {S A} (e : exn) : M S A := fun s => (Raise e, s).

Definition bind {S A B} (m : M S A) (k : A -> M S B) : M S B :=
  fun s => match m s with
           | (Ok a, s') => k a s'
           | (Raise e, s') => (Raise e, s')
           end.

(** [try: body except cls: handler]. *)
Definition try_except {S A} (body : M S A) (cls : exn -> bool) (handler : M S A) : M S A :=
  fun s => match body s with
           | (Ok a, s') => (Ok a, s')
           | (Raise e, s') => if cls e then handler s' else (Raise e, s')
           end.

(** [try: body finally: cleanup], the shape of a [with] block's exit. *)
Definition finally {S A} (body : M S A) (cleanup : S -> S) : M S A :=
  fun s => let '(r, s') := body s in (r, cleanup s').

Definition lift_result {S A} (r : result A) : M S A := fun s => (r, s).

Declare Scope py_scope.
Delimit Scope py_scope with py.
Notation "x <- c1 ;; c2" := (bind c1 (fun x => c2))
  (at level 100, c1 at next level, right associativity) : py_scope.
Notation "c1 ;; c2" := (bind c1 (fun _ => c2))
  (at level 100, right associativity) : py_scope.

(** Binding positional arguments to a function's parameters (none of the
    functions called this way has defaults, [*args] or [**kwargs]): too many
    or too few arguments raise [TypeError] before the body runs. *)
Definition bind_positional (params : list string) (args : list pyval)
  : result (list (string * pyval)) :=
  if Nat.eqb (length args) (length params) then Ok (zip params args)
  else Raise TypeError.

(** ** Strings

    A character is a code point below 256 and a string a sequence of them, so
    the strings here are Python's strings over U+0000 to U+00FF.  On these
    code points [str.isspace] holds of U+0009 to U+000D, U+001C to U+0020,
    U+0085 and U+00A0, and [str.lower] maps A to Z and the capital letters
    U+00C0 to U+00DE (U+00D7, the multiplication sign, apart) 32 places up and
    leaves every other code point as it is. *)

Definition is_space (c : ascii) : bool :=
  let n := nat_of_ascii c in
  ((9 <=? n)%nat && (n <=? 13)%nat) || ((28 <=? n)%nat && (n <=? 32)%nat)
  || Nat.eqb n 133 || Nat.eqb n 160.

Fixpoint lstrip (s : string) : string :=
  match s with
  | EmptyString => EmptyString
  | String c s' => if is_space c then lstrip s' else s
  end.

Definition lower_char (c : ascii) : ascii :=
  let n := nat_of_ascii c in
  if ((65 <=? n)%nat && (n <=? 90)%nat)
     || ((192 <=? n)%nat && (n <=? 222)%nat && negb (Nat.eqb n 215))
  then ascii_of_nat (n + 32)
  else c.

Fixpoint lower (s : string) : string :=
  match s with
  | EmptyString => EmptyString
  | String c s' => String (lower_char c) (lower s')
  end.

Definition startswith (s p : string) : bool := String.prefix p s.

(** [s * n] on strings; a count below 1 gives the empty string. *)
Definition str_repeat (s : string) (n : Z) : string :=
  String.concat "" (replicate (Z.to_nat n) s).

(** [text] occurs in [s]. *)
Definition contains (s text : string) : Prop :=
  exists pre post, s = pre +:+ text +:+ post.

(** ** client.py *)
Module Client.

Definition _SELECT_STATEMENT : string := "SELECT".
Definition _INSERT_STATEMENT : string := "INSERT".

(** One row of the planner's EXPLAIN output, with the two columns the
    estimator reads. *)
Record planner_row : Type := PlannerRow { select_type : string; rows : Z }.

(** The calls made on the driver, in order. *)
Inductive db_event : Type :=
  | Connect
  | Cursor
  | Execute (query : string)
  | Commit
  | Rollback
  | CursorClose
  | Close.

(** What the driver does: whether connecting raises, which statements raise
    when executed, the planner rows a cursor holds after an EXPLAIN, and
    whether [conn.commit()] and [conn.rollback()] raise.  These are the
    driver calls the client guards or makes inside a handler; [conn.cursor()],
    [cur.close()] and [conn.close()], made on a connection that has just been
    opened, are taken to return. *)
Record driver : Type := Driver {
  connect_fails : bool;
  execute_fails : string -> bool;
  explain : string -> list planner_row;
  commit_fails : bool;
  rollback_fails : bool
}.

Definition db : Type := list db_event.

Definition log (e : db_event) : M db unit := fun s => (Ok tt, s ++ [e]).

Definition is_connector_error (e : exn) : bool :=
  match e with MySQLConnectorError => true | _ => false end.

Record MySQLClient : Type := { config : gmap string pyval }.

Definition required_keys : gset string :=
  {[ "host"; "port"; "database"; "user"; "password" ]}.

(** [config.keys() == required_keys] compares the key view with the set. *)
Definition _validate_config (config : gmap string pyval) : result unit :=
  if bool_decide (dom config = required_keys) then Ok tt
  else Raise MySQLClientError.

(** The dataclass constructor followed by [__post_init__]. *)
Definition new (config : gmap string pyval) : result MySQLClient :=
  match _validate_config config with
  | Ok _ => Ok {| config := config |}
  | Raise e => Raise e
  end.

Fixpoint _validate_query_loop (query : string) (statements : list string) : result unit :=
  match statements with
  | [] => Ok tt
  | statement :: rest =>
      if truthy (PStr statement)
         && negb (startswith (lower query) (lower statement))
      then Raise MySQLClientError
      else _validate_query_loop query rest
  end.

Definition _validate_query (query : string) (statements : list string) : result unit :=
  _validate_query_loop (lstrip query) statements.

(** [with _MySQLConnection(config) as conn: body]: [__enter__] connects and
    maps the driver's error; [__exit__] closes the connection however the
    body ends. *)
Definition with_connection {A} (drv : driver) (body : M db A) : M db A :=
  if connect_fails drv then raise MySQLClientError
  else (log Connect ;; finally body (fun s => s ++ [Close]))%py.

Definition cur_execute (drv : driver) (query : string) : M db unit :=
  (log (Execute query) ;;
   if execute_fails drv query then raise MySQLConnectorError else ret tt)%py.

(** One turn of the scan of the planner rows.  The condition is Python's
    [(record["select_type"] == "PRIMARY") or "SIMPLE"]. *)
Definition count_step (total_number : Z) (record : planner_row) : Z :=
  if truthy (py_or (PBool (String.eqb (select_type record) "PRIMARY")) (PStr "SIMPLE"))
  then rows record
  else total_number.

Definition count_records (records : list planner_row) : Z :=
  fold_left count_step records 0.

(** The scan as the spec words it (4.2): two comparisons of the row's
    [select_type], joined by [or]. *)
Definition count_step_spec (total_number : Z) (record : planner_row) : Z :=
  if String.eqb (select_type record) "PRIMARY" || String.eqb (select_type record) "SIMPLE"
  then rows record
  else total_number.

Definition count_records_spec (records : list planner_row) : Z :=
  fold_left count_step_spec records 0.

Definition count_query_of (query : string) : string :=
  "EXPLAIN SELECT * FROM (" +:+ query +:+ ") as subq".

Definition rough_counts_estimator (drv : driver) (query : string) : M db Z :=
  (lift_result (_validate_query query [_SELECT_STATEMENT]) ;;
   let count_query := count_query_of query in
   with_connection drv
     (log Cursor ;;
      total_number <-
        try_except
          (cur_execute drv count_query ;;
           let records := explain drv count_query in
           ret (count_records records))
          is_connector_error
          (raise MySQLClientError) ;;
      log CursorClose ;;
      if total_number <=? 0 then raise MySQLConnectorError
      else ret total_number))%py.

(** [conn.commit()] and [conn.rollback()]: the call is logged, and raises the
    driver's error when the driver says so. *)
Definition conn_commit (drv : driver) : M db unit :=
  (log Commit ;;
   if commit_fails drv then raise MySQLConnectorError else ret tt)%py.

Definition conn_rollback (drv : driver) : M db unit :=
  (log Rollback ;;
   if rollback_fails drv then raise MySQLConnectorError else ret tt)%py.

(** The commit is inside the [try] block; the rollback is in the handler,
    where an error of its own is not caught. *)
Definition record_loader (drv : driver) (query : string) : M db unit :=
  (lift_result (_validate_query query [_INSERT_STATEMENT]) ;;
   with_connection drv
     (log Cursor ;;
      try_except
        (cur_execute drv query ;;
         conn_commit drv)
        is_connector_error
        (conn_rollback drv ;; raise MySQLClientError) ;;
      log CursorClose))%py.

(** The bound method [client.record_loader] applied to positional arguments:
    its only parameter besides [self] is [query].  An argument that is not a
    string has no [lstrip]. *)
Definition record_loader_call (drv : driver) (args : list pyval) : M db unit :=
  match bind_positional ["query"] args with
  | Raise e => raise e
  | Ok [(_, PStr query)] => record_loader drv query
  | Ok _ => raise AttributeError
  end.

End Client.

(** ** source.py *)
Module iobase.

(** [iobase.SourceBundle]; its [source] field is always the source that
    splits itself and is left out. *)
Record SourceBundle : Type := {
  weight : Z;
  start_position : Z;
  stop_position : Z
}.

End iobase.

(** The range tracker handed to [read] is the pipeline host's: an object with
    a state of its own that answers [start_position], [stop_position] and
    [try_claim], the last one changing the state. *)
Class RangeTracker (T : Type) : Type := {
  start_position : T -> Z;
  stop_position : T -> Z;
  try_claim : T -> Z -> bool * T
}.

Module Source.

(** A row is an ordered mapping from column names to values. *)
Definition row : Type := list (string * pyval).

Record MySQLSource : Type := { _query : pyval; _config : pyval }.

(** [MySQLSource(...)] with positional arguments: [__init__(self, query, config)]
    stores the two values it is given (the last branch is never taken: two
    parameters bind two arguments). *)
Definition __init__ (args : list pyval) : result MySQLSource :=
  match bind_positional ["query"; "config"] args with
  | Raise e => Raise e
  | Ok [(_, query); (_, config)] => Ok {| _query := query; _config := config |}
  | Ok _ => Raise TypeError
  end.

(** The attributes [_build_value] adds. *)
Record built : Type := { _counts : Z; _chunk_size : Z }.

(** The last two assignments of [_build_value]. *)
Definition with_counts (rough_counts : Z) : built :=
  {| _counts := rough_counts; _chunk_size := rough_counts / 10000 |}.

(** [_build_value], on a query and a configuration that are already resolved
    and cleansed ([get_runtime_value] and [cleanse_query] are the host's
    deferred-value resolution and are not among the sources). *)
Definition _build_value (drv : Client.driver) (query : string)
    (config : gmap string pyval) : M Client.db built :=
  (_ <- lift_result (Client.new config) ;;
   rough_counts <- Client.rough_counts_estimator drv query ;;
   ret (with_counts rough_counts))%py.

(** *** read *)

(** What a run of [read] does, in order: pull from the record generator,
    ask the tracker for a position, hand a row downstream. *)
Inductive read_event : Type :=
  | Next (next_object : option row)
  | TryClaim (i : Z) (claimed : bool)
  | Yield (r : row).

(** [next(record_generator, None)]: the generator of
    [MySQLClient.record_generator] is the list of rows its cursor has yet to
    yield, and an exhausted generator answers [None]. *)
Definition next (record_generator : list row) : option row * list row :=
  match record_generator with
  | [] => (None, [])
  | r :: rest => (Some r, rest)
  end.

Definition truthy_object (next_object : option row) : bool :=
  match next_object with
  | None => truthy PNone
  | Some r => truthy (PDict r)
  end.

(** [range(start, stop)]. *)
Definition py_range (start stop : Z) : list Z :=
  map (fun k => start + Z.of_nat k) (seq 0 (Z.to_nat (stop - start))).

(** The [for] loop of [read] over the positions left.  The test is
    [not next_object or not range_tracker.try_claim(i)]: the tracker is asked
    only for a truthy object.  The result is [None] when the loop ended in
    [return], and the generator and tracker states when the positions ran
    out. *)
Fixpoint read_for {T} `{RangeTracker T} (positions : list Z)
    (record_generator : list row) (range_tracker : T)
    : list read_event * option (list row * T) :=
  match positions with
  | [] => ([], Some (record_generator, range_tracker))
  | i :: positions' =>
      let '(next_object, record_generator') := next record_generator in
      match next_object with
      | Some r =>
          if negb (truthy_object next_object) then ([Next next_object], None)
          else
            let '(claimed, range_tracker') := try_claim range_tracker i in
            if negb claimed then ([Next next_object; TryClaim i false], None)
            else
              let '(events, rest) := read_for positions' record_generator' range_tracker' in
              (Next next_object :: TryClaim i true :: Yield r :: events, rest)
      | None => ([Next next_object], None)
      end
  end.

(** The [while True] loop that follows the [for] loop. *)
Fixpoint read_while (record_generator : list row) : list read_event :=
  match record_generator with
  | [] => [Next None]
  | r :: record_generator' =>
      if truthy_object (Some r) then Next (Some r) :: Yield r :: read_while record_generator'
      else [Next (Some r)]
  end.

Definition read {T} `{RangeTracker T} (record_generator : list row) (range_tracker : T)
    : list read_event :=
  let positions := py_range (start_position range_tracker) (stop_position range_tracker) in
  match read_for positions record_generator range_tracker with
  | (events, None) => events
  | (events, Some (record_generator', _)) => events ++ read_while record_generator'
  end.

(** The rows a run hands downstream. *)
Fixpoint yielded (events : list read_event) : list row :=
  match events with
  | [] => []
  | Yield r :: rest => r :: yielded rest
  | _ :: rest => yielded rest
  end.

(** A refused claim. *)
Definition is_refusal (e : read_event) : bool :=
  match e with TryClaim _ false => true | _ => false end.

Definition is_claim (e : read_event) : bool :=
  match e with TryClaim _ _ => true | _ => false end.

(** The events of [rows] pulled, claimed at [positions] and yielded, one
    after the other. *)
Fixpoint claimed_block (positions : list Z) (rows : list row) : list read_event :=
  match positions, rows with
  | i :: positions', r :: rows' =>
      Next (Some r) :: TryClaim i true :: Yield r :: claimed_block positions' rows'
  | _, _ => []
  end.

(** Every row handed downstream comes right after a granted claim of a
    position in [[start, stop)]. *)
Fixpoint yields_claimed (start stop : Z) (events : list read_event) : bool :=
  match events with
  | [] => true
  | TryClaim i true :: Yield _ :: rest =>
      (start <=? i) && (i <? stop) && yields_claimed start stop rest
  | Yield _ :: _ => false
  | _ :: rest => yields_claimed start stop rest
  end.

(** The rows up to the first one that is not truthy. *)
Fixpoint truthy_prefix (rows : list row) : list row :=
  match rows with
  | [] => []
  | r :: rows' => if truthy (PDict r) then r :: truthy_prefix rows' else []
  end.

(** *** split *)

(** The generator's local variables [bundle_start] and [bundle_stop]. *)
Definition split_state : Type := Z * Z.

Definition split_start (self : built) (start_position stop_position : option Z)
    : split_state * Z :=
  let start_position := default 0 start_position in
  let stop_position := default (_counts self) stop_position in
  ((start_position, _chunk_size self), stop_position).

(** One turn of the [while] loop: [None] when the loop condition fails. *)
Definition split_next (self : built) (desired_bundle_size stop_position : Z)
    (st : split_state) : option (iobase.SourceBundle * split_state) :=
  let '(bundle_start, bundle_stop) := st in
  if bundle_start <? stop_position then
    Some ({| iobase.weight := desired_bundle_size;
             iobase.start_position := bundle_start;
             iobase.stop_position := bundle_stop |},
          (bundle_stop, bundle_stop + _chunk_size self))
  else None.

(** The bundles the generator yields in at most [fuel] turns, and the state it
    is left in: [None] once the loop has ended. *)
Fixpoint split_run (fuel : nat) (self : built) (desired_bundle_size stop_position : Z)
    (st : split_state) : list iobase.SourceBundle * option split_state :=
  match fuel with
  | O => ([], Some st)
  | S fuel' =>
      match split_next self desired_bundle_size stop_position st with
      | None => ([], None)
      | Some (bundle, st') =>
          let '(bundles, final) := split_run fuel' self desired_bundle_size stop_position st' in
          (bundle :: bundles, final)
      end
  end.

Definition split (fuel : nat) (self : built) (desired_bundle_size : Z)
    (start_position stop_position : option Z)
    : list iobase.SourceBundle * option split_state :=
  let '(st, stop_position) := split_start self start_position stop_position in
  split_run fuel self desired_bundle_size stop_position st.

End Source.

(** ** io.py *)
Module IO.

Module ReadFromMySQL.

Record t : Type := {
  _query : pyval;
  _host : pyval;
  _database : pyval;
  _user : pyval;
  _password : pyval;
  _port : pyval;
  _splitter : pyval
}.

(** [expand] builds its source first; [iobase.Read] and the pipe to [pcoll],
    which are the host's, then take the source. *)
Definition expand (self : t) : result Source.MySQLSource :=
  Source.__init__
    [_query self; _host self; _database self; _user self; _password self;
     _port self; _splitter self].

End ReadFromMySQL.

Module WriteToMySQLFn.

(** The attributes of [_WriteToMySQLFn] that [process] and [finish_bundle]
    use, after [start_bundle] has resolved them; [_database] is
    [self._config['database']], and [query] is absent until [process] assigns
    it. *)
Record t : Type := {
  _database : string;
  _table : string;
  _batch_size : Z;
  do_upsert : bool;
  _values_batch : list (list pyval);
  query : option string
}.

Definition set_query (q : string) (self : t) : t :=
  {| _database := _database self; _table := _table self;
     _batch_size := _batch_size self; do_upsert := do_upsert self;
     _values_batch := _values_batch self; query := Some q |}.

Definition set_values_batch (b : list (list pyval)) (self : t) : t :=
  {| _database := _database self; _table := _table self;
     _batch_size := _batch_size self; do_upsert := do_upsert self;
     _values_batch := b; query := query self |}.

(** The statement [process] builds from the columns of an element. *)
Definition build_query (self : t) (columns : list string) (values : list pyval) : string :=
  let column_str := String.concat ", " columns in
  let value_str := "%s" +:+ str_repeat ",%s" (Z.of_nat (length values) - 1) in
  let query :=
    "INSERT INTO " +:+ _database self +:+ "." +:+ _table self
      +:+ " (" +:+ column_str +:+ ") VALUES (" +:+ value_str +:+ ")" in
  if do_upsert self then
    let update_str :=
      String.concat ", " (map (fun column => column +:+ " = VALUES(" +:+ column +:+ ")") columns) in
    query +:+ " ON DUPLICATE KEY UPDATE " +:+ update_str +:+ ";"
  else query.

(** The object once [process] has stored the statement of [element] and
    appended its values. *)
Definition appended (self : t) (element : Source.row) : t :=
  set_values_batch (_values_batch self ++ [map snd element])
    (set_query (build_query self (map fst element) (map snd element)) self).

(** The state a bundle runs in: the DoFn object and the driver's log. *)
Definition st : Type := t * Client.db.

Definition get_self : M st t := fun s => (Ok (fst s), s).

Definition modify_self (f : t -> t) : M st unit := fun s => (Ok tt, (f (fst s), snd s)).

Definition on_db {A} (m : M Client.db A) : M st A :=
  fun s => let '(r, d) := m (snd s) in (r, (fst s, d)).

Section Writer.

(** [self._client.record_loader], as a callable on positional arguments. *)
Variable record_loader : list pyval -> M Client.db unit.

Definition batch_arg (values_batch : list (list pyval)) : pyval :=
  PList (map PList values_batch).

Definition process (element : Source.row) : M st unit :=
  (let columns := map fst element in
   let values := map snd element in
   self <- get_self ;;
   let query := build_query self columns values in
   modify_self (set_query query) ;;
   modify_self (fun self => set_values_batch (_values_batch self ++ [values]) self) ;;
   self <- get_self ;;
   if Z.of_nat (length (_values_batch self)) >=? _batch_size self then
     on_db (record_loader [PStr query; batch_arg (_values_batch self)]) ;;
     modify_self (set_values_batch [])
   else ret tt)%py.

Definition finish_bundle : M st unit :=
  (self <- get_self ;;
   if negb (Nat.eqb (length (_values_batch self)) 0) then
     match query self with
     | None => raise AttributeError
     | Some q =>
         on_db (record_loader [PStr q; batch_arg (_values_batch self)]) ;;
         modify_self (set_values_batch [])
     end
   else ret tt)%py.

(** The elements of a bundle, one [process] call each. *)
Fixpoint feed (elements : list Source.row) : M st unit :=
  match elements with
  | [] => ret tt
  | element :: rest => (process element ;; feed rest)%py
  end.

End Writer.

(** [start_bundle]: [_build_value] makes the client from the five-key
    configuration, and the batch starts empty. *)
Definition writer_config (host database user password port : pyval) : gmap string pyval :=
  {[ "host" := host; "database" := database; "user" := user;
     "password" := password; "port" := port ]}.

Definition start_bundle (host user password port : pyval) (database table : string)
    (batch_size : Z) (upsert : bool) : result t :=
  match Client.new (writer_config host (PStr database) user password port) with
  | Raise e => Raise e
  | Ok _ =>
      Ok {| _database := database; _table := table; _batch_size := batch_size;
            do_upsert := upsert; _values_batch := []; query := None |}
  end.

End WriteToMySQLFn.

End IO.


(** ** Sample inputs *)
Module Samples.

Definition exact_config : gmap string pyval :=
  {[ "host" := PStr "localhost"; "port" := PInt 3306; "database" := PStr "db";
     "user" := PStr "root"; "password" := PStr "secret" ]}.

Definition primary_42 : Client.planner_row := Client.PlannerRow "PRIMARY" 42.
Definition derived_500 : Client.planner_row := Client.PlannerRow "DERIVED" 500.

(** A driver that connects, executes everything, and answers EXPLAIN with
    [records]. *)
Definition planner (records : list Client.planner_row) : Client.driver :=
  Client.Driver false (fun _ => false) (fun _ => records) false false.

(** A driver on which every execution raises. *)
Definition failing : Client.driver :=
  Client.Driver false (fun _ => true) (fun _ => []) false false.

(** A driver on which the commit raises, and one on which the execution and
    then the rollback raise. *)
Definition commit_failing : Client.driver :=
  Client.Driver false (fun _ => false) (fun _ => []) true false.

Definition rollback_failing : Client.driver :=
  Client.Driver false (fun _ => true) (fun _ => []) false true.

(** A tracker of the range [[start, stop)] that a concurrent split has
    shrunk to [[start, split_at)] after [read] asked for its stop position:
    positions from [split_at] on are refused. *)
Record shrunk_tracker : Type := { start : Z; stop : Z; split_at : Z }.

#[export] Instance shrunk_tracker_ops : RangeTracker shrunk_tracker := {|
  start_position t := start t;
  stop_position t := stop t;
  try_claim t i := ((start t <=? i) && (i <? split_at t), t)
|}.

Definition row_1 : Source.row := [("id", PInt 1); ("name", PStr "a")].
Definition row_2 : Source.row := [("id", PInt 2); ("name", PStr "b")].
Definition row_3 : Source.row := [("id", PInt 3); ("name", PStr "c")].

Definition writer (batch_size : Z) (upsert : bool) : IO.WriteToMySQLFn.t :=
  {| IO.WriteToMySQLFn._database := "db"; IO.WriteToMySQLFn._table := "users";
     IO.WriteToMySQLFn._batch_size := batch_size;
     IO.WriteToMySQLFn.do_upsert := upsert;
     IO.WriteToMySQLFn._values_batch := []; IO.WriteToMySQLFn.query := None |}.

End Samples.

(** ** client.py: the record generator *)
Module Generator.

(** The generator object [record_generator(query)] returns is in one of
    three states: not started; suspended at [yield], with the connection and
    the cursor open and the records the cursor has yet to give; finished. *)
Inductive t : Type :=
  | Fresh (query : string)
  | Suspended (remaining : list (list (string * pyval)))
  | Finished.

Definition st : Type := t * Client.db.

(** [next(generator, None)]: the body runs up to its next [yield].  [fetch]
    gives the records the cursor iterates over once the statement has been
    executed; [None] is the default returned at [StopIteration].  An
    exception raised in the body leaves the generator finished. *)
Definition resume (drv : Client.driver) (fetch : string -> list (list (string * pyval)))
    : M st (option (list (string * pyval))) :=
  fun '(g, d) =>
    match g with
    | Finished => (Ok None, (Finished, d))
    | Suspended [] => (Ok None, (Finished, d ++ [Client.CursorClose; Client.Close]))
    | Suspended (record :: remaining) => (Ok (Some record), (Suspended remaining, d))
    | Fresh query =>
        match Client._validate_query query [Client._SELECT_STATEMENT] with
        | Raise e => (Raise e, (Finished, d))
        | Ok _ =>
            if Client.connect_fails drv then (Raise MySQLClientError, (Finished, d))
            else
              match (Client.log Client.Connect ;; Client.log Client.Cursor ;;
                     Client.cur_execute drv query)%py d with
              | (Raise e, d') =>
                  (Raise (if Client.is_connector_error e then MySQLClientError else e),
                   (Finished, d' ++ [Client.Close]))
              | (Ok _, d') =>
                  match fetch query with
                  | [] => (Ok None, (Finished, d' ++ [Client.CursorClose; Client.Close]))
                  | record :: remaining => (Ok (Some record), (Suspended remaining, d'))
                  end
              end
        end
    end.

(** [n] calls of [next(generator, None)] in a row, up to the first one that
    raises. *)
Fixpoint pulls (drv : Client.driver) (fetch : string -> list (list (string * pyval)))
    (n : nat) : M st (list (option (list (string * pyval)))) :=
  match n with
  | O => ret []
  | S n' =>
      (next_object <- resume drv fetch ;;
       rest <- pulls drv fetch n' ;;
       ret (next_object :: rest))%py
  end.

(** The generator starts: the query is a SELECT, the connection opens and the
    execution does not raise. *)
Definition starts (drv : Client.driver) (query : string) : bool :=
  match Client._validate_query query [Client._SELECT_STATEMENT] with
  | Ok _ => negb (Client.connect_fails drv) && negb (Client.execute_fails drv query)
  | Raise _ => false
  end.

(** What CPython does to a generator when the last reference to it goes:
    [close()] raises [GeneratorExit] at the [yield] a suspended generator
    waits at, which the [except] clause does not catch and which leaves the
    [with] block, so that the connection is closed, without [cur.close()].  A
    generator that never started, or has finished, has nothing to leave. *)
Definition finalise (s : st) : st :=
  match s with
  | (Suspended _, d) => (Finished, d ++ [Client.Close])
  | (Fresh _, d) => (Finished, d)
  | (Finished, d) => (Finished, d)
  end.

End Generator.

(** ** source.py: the source on its client *)
Module Reader.

(** How a run of [read] ends: by [return] or at the end of the [while] loop,
    by an exception of the record generator, or, in the model only, with the
    fuel of the [while] loop used up. *)
Inductive ending : Type :=
  | Returned
  | Raised (e : exn)
  | OutOfFuel.

Record run (T : Type) : Type := {
  events : list Source.read_event;
  how : ending;
  generator : Generator.st;
  tracker : T
}.
Arguments events {T} r.
Arguments how {T} r.
Arguments generator {T} r.
Arguments tracker {T} r.

Section WithClient.

Variable drv : Client.driver.
Variable fetch : string -> list Source.row.

Context {T : Type} `{RangeTracker T}.

(** The [for] loop of [read] on the generator of the client; [inr] carries
    the states the [while] loop starts from. *)
Fixpoint read_for (positions : list Z) (g : Generator.st) (range_tracker : T)
    : list Source.read_event * (ending * Generator.st * T + Generator.st * T) :=
  match positions with
  | [] => ([], inr (g, range_tracker))
  | i :: positions' =>
      match Generator.resume drv fetch g with
      | (Raise e, g') => ([], inl (Raised e, g', range_tracker))
      | (Ok next_object, g') =>
          match next_object with
          | Some r =>
              if negb (Source.truthy_object next_object)
              then ([Source.Next next_object], inl (Returned, g', range_tracker))
              else
                let '(claimed, range_tracker') := try_claim range_tracker i in
                if negb claimed
                then ([Source.Next next_object; Source.TryClaim i false],
                      inl (Returned, g', range_tracker'))
                else
                  let '(events, rest) := read_for positions' g' range_tracker' in
                  (Source.Next next_object :: Source.TryClaim i true :: Source.Yield r :: events,
                   rest)
          | None => ([Source.Next next_object], inl (Returned, g', range_tracker))
          end
      end
  end.

(** The [while True] loop, for at most [fuel] turns. *)
Fixpoint read_while (fuel : nat) (g : Generator.st)
    : list Source.read_event * (ending * Generator.st) :=
  match fuel with
  | O => ([], (OutOfFuel, g))
  | S fuel' =>
      match Generator.resume drv fetch g with
      | (Raise e, g') => ([], (Raised e, g'))
      | (Ok next_object, g') =>
          match next_object with
          | Some r =>
              if Source.truthy_object next_object then
                let '(events, rest) := read_while fuel' g' in
                (Source.Next next_object :: Source.Yield r :: events, rest)
              else ([Source.Next next_object], (Returned, g'))
          | None => ([Source.Next next_object], (Returned, g'))
          end
      end
  end.

(** [record_generator] is a local variable of [read]: when [read] ends, by
    [return] or by an exception, the generator is released and finalised. *)
Definition release (e : ending) (g : Generator.st) : Generator.st :=
  match e with
  | OutOfFuel => g
  | _ => Generator.finalise g
  end.

(** [read(range_tracker)] consumed to its end, on a client whose log is
    [d]. *)
Definition read (fuel : nat) (query : string) (d : Client.db) (range_tracker : T) : run T :=
  let record_generator := (Generator.Fresh query, d) in
  let positions :=
    Source.py_range (start_position range_tracker) (stop_position range_tracker) in
  match read_for positions record_generator range_tracker with
  | (events, inl (e, g, t)) =>
      {| events := events; how := e; generator := release e g; tracker := t |}
  | (events, inr (g, t)) =>
      let '(events', (e, g')) := read_while fuel g in
      {| events := events ++ events'; how := e; generator := release e g'; tracker := t |}
  end.

End WithClient.

(** [estimate_size]. *)
Definition estimate_size (self : Source.built) : Z := Source._counts self.

(** [get_range_tracker]: the two bounds handed to [OffsetRangeTracker], and
    the attributes [_build_value] has set. *)
Definition get_range_tracker (drv : Client.driver) (query : string)
    (config : gmap string pyval) (start_position stop_position : option Z)
    : M Client.db (Source.built * (Z * Z)) :=
  (self <- Source._build_value drv query config ;;
   let start_position := default 0 start_position in
   let stop_position := default (Source._counts self) stop_position in
   ret (self, (start_position, stop_position)))%py.

End Reader.

(** ** Vocabulary of the properties *)
Module Facts.

(** The statements executed, in order. *)
Fixpoint executed (events : Client.db) : list string :=
  match events with
  | [] => []
  | Client.Execute q :: rest => q :: executed rest
  | _ :: rest => executed rest
  end.

(** A log extension that opens one connection and closes it last. *)
Definition one_session (events : Client.db) : Prop :=
  exists middle,
    events = Client.Connect :: middle ++ [Client.Close]
    /\ (Client.Connect ∉ middle) /\ (Client.Close ∉ middle).

Fixpoint all_space (s : string) : bool :=
  match s with
  | EmptyString => true
  | String c s' => is_space c && all_space s'
  end.


(** A generator that will not raise when resumed. *)
Definition sound (drv : Client.driver) (g : Generator.t) : bool :=
  match g with
  | Generator.Fresh query => Generator.starts drv query
  | _ => true
  end.

(** A cursor that gives three rows for every statement. *)
Definition users_table (query : string) : list Source.row :=
  [Samples.row_1; Samples.row_2; Samples.row_3].

End Facts.

(** * Properties *)

(** ** client.py *)
Section ClientFacts.

Import Client Samples.

Lemma validate_config_cases (config : gmap string pyval) :
  (dom config = required_keys /\ new config = Ok {| Client.config := config |})
  \/ (dom config <> required_keys /\ new config = Raise MySQLClientError).
Proof.
  unfold new, _validate_config. case_bool_decide; [left | right]; done.
Qed.

(** C9.  Constructing [MySQLClient] succeeds exactly when the key set of the
    configuration is {host, port, database, user, password}; otherwise, and in
    particular when a required key is missing or another key is present, it
    raises [MySQLClientError]. *)
Theorem new_iff_exact_keys (config : gmap string pyval) :
  (new config = Ok {| Client.config := config |} <-> dom config = required_keys)
  /\ (new config = Raise MySQLClientError <-> dom config <> required_keys)
  /\ (forall k : string,
        (k ∈ required_keys /\ k ∉ dom config) \/ ((k ∉ required_keys) /\ k ∈ dom config) ->
        new config = Raise MySQLClientError).
Proof.
  destruct (validate_config_cases config) as [[Hd Hn] | [Hd Hn]]; rewrite Hn.
  - split; [| split]; [done | split; done |].
    intros k Hk. exfalso. rewrite Hd in Hk. destruct Hk as [[? ?] | [? ?]]; done.
  - split; [| split]; [split; done | done | done].
Qed.

Lemma new_iff_exact_keys_witness :
  new exact_config = Ok {| Client.config := exact_config |}
  /\ new (delete "port" exact_config) = Raise MySQLClientError
  /\ new (<["charset" := PStr "utf8"]> exact_config) = Raise MySQLClientError.
Proof.
  split; [| split].
  - apply (proj1 (new_iff_exact_keys exact_config)). vm_compute. reflexivity.
  - apply (proj2 (proj2 (new_iff_exact_keys (delete "port" exact_config))) "port").
    left. split; vm_compute; done.
  - apply (proj2 (proj2 (new_iff_exact_keys (<["charset" := PStr "utf8"]> exact_config)))
             "charset").
    right. split; vm_compute; done.
Defined.

(** *** The estimator *)

Lemma count_step_takes_row (total_number : Z) (record : planner_row) :
  count_step total_number record = rows record.
Proof.
  unfold count_step, py_or. simpl.
  destruct (String.eqb (select_type record) "PRIMARY"); reflexivity.
Qed.

Lemma count_records_last (records : list planner_row) (record : planner_row) :
  count_records (records ++ [record]) = rows record.
Proof.
  unfold count_records. rewrite fold_left_app. simpl. apply count_step_takes_row.
Qed.

(** A run of the estimator on a SELECT query when connecting and executing
    succeed. *)
Lemma rough_counts_estimator_run (drv : driver) (query : string) (d : db) :
  _validate_query query [_SELECT_STATEMENT] = Ok tt ->
  connect_fails drv = false ->
  execute_fails drv (count_query_of query) = false ->
  rough_counts_estimator drv query d =
    (let total_number := count_records (explain drv (count_query_of query)) in
     if total_number <=? 0 then Raise MySQLConnectorError else Ok total_number,
     d ++ [Connect; Cursor; Execute (count_query_of query); CursorClose; Close]).
Proof.
  intros Hq Hc He.
  unfold rough_counts_estimator, with_connection, cur_execute, try_except,
    finally, bind, lift_result, log, ret, raise.
  rewrite Hq, Hc, He. cbn zeta.
  destruct (count_records (explain drv (count_query_of query)) <=? 0);
    rewrite <- !app_assoc; reflexivity.
Qed.

(** C2.  The estimator takes the [rows] value of the last planner row,
    whatever its [select_type]: with the DERIVED row last it returns 500,
    where the scan worded by the spec gives 42 in both orders. *)
Theorem estimator_takes_last_planner_row (d : db) :
  fst (rough_counts_estimator (planner [primary_42; derived_500]) "SELECT * FROM t" d) = Ok 500
  /\ fst (rough_counts_estimator (planner [derived_500; primary_42]) "SELECT * FROM t" d) = Ok 42
  /\ count_records_spec [primary_42; derived_500] = 42
  /\ count_records_spec [derived_500; primary_42] = 42.
Proof.
  repeat split; try reflexivity; rewrite rough_counts_estimator_run; reflexivity.
Qed.

(** C6.  When the total the scan computes is not positive, the estimator
    raises the driver's [Error] class, outside the [try] block that maps
    driver errors, and not [MySQLClientError]. *)
Theorem estimator_nonpositive_raises_driver_error (drv : driver) (query : string) (d : db) :
  _validate_query query [_SELECT_STATEMENT] = Ok tt ->
  connect_fails drv = false ->
  execute_fails drv (count_query_of query) = false ->
  count_records (explain drv (count_query_of query)) <= 0 ->
  fst (rough_counts_estimator drv query d) = Raise MySQLConnectorError
  /\ fst (rough_counts_estimator drv query d) <> Raise MySQLClientError.
Proof.
  intros Hq Hc He Hle. rewrite rough_counts_estimator_run by assumption. cbn.
  apply Z.leb_le in Hle. rewrite Hle. split; [reflexivity | discriminate].
Qed.

Lemma estimator_nonpositive_raises_driver_error_witness :
  fst (rough_counts_estimator (planner []) "SELECT * FROM t" []) = Raise MySQLConnectorError
  /\ fst (rough_counts_estimator (planner []) "SELECT * FROM t" []) <> Raise MySQLClientError.
Proof.
  apply (estimator_nonpositive_raises_driver_error (planner []) "SELECT * FROM t" []);
    vm_compute; reflexivity || discriminate.
Defined.

(** *** The loader *)

(** A run of [record_loader] on an INSERT statement when the connection
    opens.  An execution or a commit that raises is followed by the rollback,
    and then by [MySQLClientError], or by the driver's error when the rollback
    raises too; the connection is closed on every path, the cursor on the
    path that commits. *)
Lemma record_loader_run (drv : driver) (query : string) (d : db) :
  _validate_query query [_INSERT_STATEMENT] = Ok tt ->
  connect_fails drv = false ->
  record_loader drv query d =
    if execute_fails drv query
    then (Raise (if rollback_fails drv then MySQLConnectorError else MySQLClientError),
          d ++ [Connect; Cursor; Execute query; Rollback; Close])
    else if commit_fails drv
    then (Raise (if rollback_fails drv then MySQLConnectorError else MySQLClientError),
          d ++ [Connect; Cursor; Execute query; Commit; Rollback; Close])
    else (Ok tt, d ++ [Connect; Cursor; Execute query; Commit; CursorClose; Close]).
Proof.
  intros Hq Hc.
  unfold record_loader, with_connection, cur_execute, conn_commit, conn_rollback,
    try_except, finally, bind, lift_result, log, ret, raise.
  rewrite Hq, Hc.
  destruct (execute_fails drv query), (commit_fails drv), (rollback_fails drv); cbn;
    rewrite <- !app_assoc; reflexivity.
Qed.

(** The bound method takes one argument: any other number raises [TypeError]
    before the body runs, and the driver is not touched. *)
Lemma record_loader_call_arity (drv : driver) (args : list pyval) (d : db) :
  length args <> 1%nat ->
  Client.record_loader_call drv args d = (Raise TypeError, d).
Proof.
  intros Hlen. unfold Client.record_loader_call, bind_positional.
  destruct args as [| a [| b args]]; simpl in *; try reflexivity. congruence.
Qed.

End ClientFacts.

(** ** io.py: the batch writer *)
Section WriterFacts.

Import IO.WriteToMySQLFn Samples.

Variable loader : list pyval -> M Client.db unit.

Lemma process_run (element : Source.row) (self : t) (d : Client.db) :
  process loader element (self, d) =
    let self1 := appended self element in
    let q := build_query self (map fst element) (map snd element) in
    if Z.of_nat (length (_values_batch self1)) >=? _batch_size self then
      match loader [PStr q; batch_arg (_values_batch self1)] d with
      | (Ok _, d') => (Ok tt, (set_values_batch [] self1, d'))
      | (Raise e, d') => (Raise e, (self1, d'))
      end
    else (Ok tt, (self1, d)).
Proof.
  unfold process, bind, get_self, modify_self, on_db, ret, appended. simpl.
  destruct (_ >=? _); [| reflexivity]. simpl.
  destruct (loader _ d) as [[[] | e] d']; reflexivity.
Qed.

Lemma finish_bundle_run (self : t) (d : Client.db) :
  finish_bundle loader (self, d) =
    match _values_batch self, query self with
    | [], _ => (Ok tt, (self, d))
    | _ :: _, None => (Raise AttributeError, (self, d))
    | _ :: _, Some q =>
        match loader [PStr q; batch_arg (_values_batch self)] d with
        | (Ok _, d') => (Ok tt, (set_values_batch [] self, d'))
        | (Raise e, d') => (Raise e, (self, d'))
        end
    end.
Proof.
  unfold finish_bundle, bind, get_self, modify_self, on_db, ret, raise. simpl.
  destruct (_values_batch self) as [| v b] eqn:Hb; simpl; [reflexivity |].
  destruct (query self) as [q |]; [| reflexivity]. simpl.
  destruct (loader _ d) as [[[] | e] d']; reflexivity.
Qed.

Lemma feed_app (l1 l2 : list Source.row) (s : st) :
  feed loader (l1 ++ l2) s = bind (feed loader l1) (fun _ => feed loader l2) s.
Proof.
  revert s. induction l1 as [| e l1 IH]; intros s; simpl.
  - reflexivity.
  - unfold bind in *.
    destruct (process loader e s) as [[[] | ex] s']; [apply IH | reflexivity].
Qed.

(** Below the threshold [process] only accumulates. *)
Lemma feed_below (elements : list Source.row) (self : t) (d : Client.db) :
  Z.of_nat (length (_values_batch self) + length elements) < _batch_size self ->
  exists self',
    feed loader elements (self, d) = (Ok tt, (self', d))
    /\ _values_batch self' = _values_batch self ++ map (map snd) elements
    /\ _batch_size self' = _batch_size self.
Proof.
  revert self. induction elements as [| e elements IH]; intros self Hlt.
  - exists self. simpl. rewrite app_nil_r. done.
  - simpl in *. unfold bind. rewrite process_run. cbn zeta.
    assert (Hlen : length (_values_batch (appended self e))
                   = S (length (_values_batch self))).
    { simpl. rewrite length_app. simpl. lia. }
    rewrite Hlen.
    destruct (Z.geb_spec (Z.of_nat (S (length (_values_batch self)))) (_batch_size self))
      as [Hge | Hlt']; [lia |].
    destruct (IH (appended self e)) as (self' & Hrun & Hb & Hs).
    { rewrite Hlen. simpl. lia. }
    exists self'. rewrite Hrun. simpl in *. rewrite Hb, <- app_assoc. done.
Qed.

(** A flush whose loader call raises leaves the object as it was when the
    call was made. *)
Lemma process_flush_raises (element : Source.row) (self : t) (d d' : Client.db) (e : exn) :
  _batch_size self <= Z.of_nat (length (_values_batch self)) + 1 ->
  loader [PStr (build_query self (map fst element) (map snd element));
          batch_arg (_values_batch self ++ [map snd element])] d = (Raise e, d') ->
  process loader element (self, d) = (Raise e, (appended self element, d')).
Proof.
  intros Hge Hraise. rewrite process_run. cbn zeta.
  assert (Hlen : length (_values_batch (appended self element))
                 = S (length (_values_batch self))).
  { simpl. rewrite length_app. simpl. lia. }
  rewrite Hlen.
  destruct (Z.geb_spec (Z.of_nat (S (length (_values_batch self)))) (_batch_size self))
    as [_ | Hlt]; [| lia].
  simpl. rewrite Hraise. reflexivity.
Qed.

End WriterFacts.

Section WriterClaims.

Import IO.WriteToMySQLFn Samples.

(** [start_bundle] succeeds: the configuration the DoFn keeps has the five
    required keys. *)
Lemma start_bundle_ok (host user password port : pyval) (database table : string)
    (batch_size : Z) (upsert : bool) :
  start_bundle host user password port database table batch_size upsert
    = Ok {| _database := database; _table := table; _batch_size := batch_size;
            do_upsert := upsert; _values_batch := []; query := None |}.
Proof.
  unfold start_bundle.
  destruct (validate_config_cases (writer_config host (PStr database) user password port))
    as [[Hd Hn] | [Hd Hn]]; rewrite Hn; [reflexivity |].
  exfalso. apply Hd. unfold writer_config, Client.required_keys.
  rewrite !dom_insert_L, dom_singleton_L. set_solver.
Qed.

(** C4.  With the repository's client, the flush that the [batch_size]-th
    row triggers raises [TypeError] at the call of [record_loader], which
    takes the statement only: nothing is executed or committed, the batch
    still holds all [batch_size] value-tuples, and rows that follow are not
    processed, so no second flush takes place. *)
Theorem feed_batch_size_rows_raises_type_error
    (drv : Client.driver) (self : t) (d : Client.db) (elements extra : list Source.row) :
  _values_batch self = [] ->
  1 <= _batch_size self ->
  Z.of_nat (length elements) = _batch_size self ->
  exists self',
    feed (Client.record_loader_call drv) (elements ++ extra) (self, d)
      = (Raise TypeError, (self', d))
    /\ _values_batch self' = map (map snd) elements.
Proof.
  intros Hempty Hpos Hlen.
  destruct elements as [| e0 elements0] using rev_ind; [simpl in Hlen; lia |].
  clear IHelements0. rename elements0 into init, e0 into last.
  rewrite length_app in Hlen. simpl in Hlen.
  destruct (feed_below (Client.record_loader_call drv) init self d)
    as (self1 & Hrun & Hb & Hs).
  { rewrite Hempty. simpl. lia. }
  rewrite Hempty in Hb. simpl in Hb.
  exists (appended self1 last). split.
  - rewrite <- app_assoc, feed_app. unfold bind at 1. rewrite Hrun.
    simpl. unfold bind.
    rewrite (process_flush_raises _ last self1 d d TypeError).
    + reflexivity.
    + rewrite Hs, Hb, length_map. unfold Source.row in *. lia.
    + apply record_loader_call_arity. simpl. lia.
  - simpl. rewrite Hb, map_app. reflexivity.
Qed.

Lemma feed_batch_size_rows_raises_type_error_witness :
  exists self',
    feed (Client.record_loader_call (planner [])) ([row_1; row_2] ++ [row_3])
         (writer 2 false, [])
      = (Raise TypeError, (self', []))
    /\ _values_batch self' = map (map snd) [row_1; row_2].
Proof.
  apply (feed_batch_size_rows_raises_type_error
           (planner []) (writer 2 false) [] [row_1; row_2] [row_3]).
  - reflexivity.
  - simpl. lia.
  - reflexivity.
Defined.

(** C5.  No flush of the batch writer gets as far as executing its
    statement.  Take a driver on which the execution of the statement raises:
    [record_loader], given the statement alone, rolls back, closes the
    connection and raises [MySQLClientError]; but the flush, made by [process]
    when the row fills the batch or by [finish_bundle] on the batch that is
    left, raises [TypeError] at the call of [record_loader].  The driver is
    not touched, so nothing is rolled back, and the error that surfaces is
    not the client error.  The batch keeps its value-tuples. *)
Theorem flush_raises_type_error_without_rollback
    (drv : Client.driver) (self : t) (element : Source.row) (d : Client.db) :
  Client.connect_fails drv = false ->
  Client.execute_fails drv (build_query self (map fst element) (map snd element)) = true ->
  Client.rollback_fails drv = false ->
  _batch_size self <= Z.of_nat (length (_values_batch self)) + 1 ->
  process (Client.record_loader_call drv) element (self, d)
    = (Raise TypeError, (appended self element, d))
  /\ finish_bundle (Client.record_loader_call drv) (appended self element, d)
     = (Raise TypeError, (appended self element, d))
  /\ _values_batch (appended self element) = _values_batch self ++ [map snd element]
  /\ Client.record_loader drv (build_query self (map fst element) (map snd element)) d
     = (Raise MySQLClientError,
        d ++ [Client.Connect; Client.Cursor;
              Client.Execute (build_query self (map fst element) (map snd element));
              Client.Rollback; Client.Close]).
Proof.
  intros Hc He Hr Hge. split; [| split; [| split]].
  - apply process_flush_raises; [exact Hge |].
    apply record_loader_call_arity. cbn. lia.
  - rewrite finish_bundle_run. cbn [appended set_values_batch set_query _values_batch query].
    destruct (_values_batch self ++ [map snd element]) as [| v b] eqn:Hb.
    + apply (f_equal length) in Hb. rewrite length_app in Hb. cbn in Hb. lia.
    + rewrite record_loader_call_arity by (cbn; lia). reflexivity.
  - reflexivity.
  - rewrite record_loader_run; [rewrite He, Hr; reflexivity | | exact Hc].
    unfold build_query. destruct (do_upsert self); reflexivity.
Qed.

Lemma flush_raises_type_error_without_rollback_witness :
  process (Client.record_loader_call failing) row_1 (writer 1 false, [])
    = (Raise TypeError, (appended (writer 1 false) row_1, []))
  /\ finish_bundle (Client.record_loader_call failing) (appended (writer 1 false) row_1, [])
     = (Raise TypeError, (appended (writer 1 false) row_1, []))
  /\ _values_batch (appended (writer 1 false) row_1)
     = _values_batch (writer 1 false) ++ [map snd row_1]
  /\ Client.record_loader failing
       (build_query (writer 1 false) (map fst row_1) (map snd row_1)) []
     = (Raise MySQLClientError,
        [] ++ [Client.Connect; Client.Cursor;
               Client.Execute (build_query (writer 1 false) (map fst row_1) (map snd row_1));
               Client.Rollback; Client.Close]).
Proof.
  apply (flush_raises_type_error_without_rollback failing (writer 1 false) row_1 []).
  - reflexivity.
  - reflexivity.
  - reflexivity.
  - cbn. lia.
Defined.

End WriterClaims.

Section StatementFacts.

Import IO.WriteToMySQLFn Samples.

Lemma append_assoc (s1 s2 s3 : string) : (s1 +:+ s2) +:+ s3 = s1 +:+ (s2 +:+ s3).
Proof.
  induction s1 as [| c s1 IH]; [reflexivity |].
  change (String c ((s1 +:+ s2) +:+ s3) = String c (s1 +:+ (s2 +:+ s3))).
  rewrite IH. reflexivity.
Qed.

(** Whatever the flush does, [process] leaves the statement it built in
    [self.query]. *)
Lemma process_stores_query (loader : list pyval -> M Client.db unit)
    (element : Source.row) (self : t) (d : Client.db) :
  query (fst (snd (process loader element (self, d))))
    = Some (build_query self (map fst element) (map snd element)).
Proof.
  rewrite process_run. cbn zeta.
  destruct (_ >=? _); [| reflexivity].
  destruct (loader _ d) as [[[] | e] d']; reflexivity.
Qed.

Lemma build_query_upsert_clause (self : t) (columns : list string) (values : list pyval) :
  do_upsert self = true ->
  contains (build_query self columns values)
    ("ON DUPLICATE KEY UPDATE "
       +:+ String.concat ", "
             (map (fun column => column +:+ " = VALUES(" +:+ column +:+ ")") columns)).
Proof.
  intros Hupsert. unfold build_query. rewrite Hupsert. cbv zeta.
  match goal with
  | |- contains (?insert +:+ _) _ => generalize insert; intros insert_str
  end.
  exists (insert_str +:+ " "), ";".
  rewrite (append_assoc insert_str " "). reflexivity.
Qed.

(** C10.  With the upsert flag set, the statement [process] builds and stores
    for a row contains [ON DUPLICATE KEY UPDATE] followed by one
    [col = VALUES(col)] term per column of the row, in order and separated by
    a comma and a space; for the columns id, name it contains
    [ON DUPLICATE KEY UPDATE id = VALUES(id), name = VALUES(name)]. *)
Theorem upsert_statement_has_update_clause
    (loader : list pyval -> M Client.db unit) (self : t) (element : Source.row)
    (d : Client.db) :
  do_upsert self = true ->
  exists q : string,
    query (fst (snd (process loader element (self, d)))) = Some q
    /\ contains q
         ("ON DUPLICATE KEY UPDATE "
            +:+ String.concat ", "
                  (map (fun column => column +:+ " = VALUES(" +:+ column +:+ ")")
                       (map fst element)))
    /\ (map fst element = ["id"; "name"] ->
        contains q "ON DUPLICATE KEY UPDATE id = VALUES(id), name = VALUES(name)").
Proof.
  intros Hupsert. eexists. split; [apply process_stores_query |]. split.
  - apply build_query_upsert_clause, Hupsert.
  - intros Hcolumns.
    pose proof (build_query_upsert_clause self (map fst element) (map snd element) Hupsert)
      as Hclause.
    rewrite Hcolumns in Hclause |- *. exact Hclause.
Qed.

Lemma upsert_statement_has_update_clause_witness :
  exists q : string,
    query (fst (snd (process (Client.record_loader_call (planner [])) row_1
                       (writer 1000 true, [])))) = Some q
    /\ contains q
         ("ON DUPLICATE KEY UPDATE "
            +:+ String.concat ", "
                  (map (fun column => column +:+ " = VALUES(" +:+ column +:+ ")")
                       (map fst row_1)))
    /\ (map fst row_1 = ["id"; "name"] ->
        contains q "ON DUPLICATE KEY UPDATE id = VALUES(id), name = VALUES(name)").
Proof.
  apply (upsert_statement_has_update_clause
           (Client.record_loader_call (planner [])) (writer 1000 true) row_1 []).
  reflexivity.
Defined.

End StatementFacts.

(** ** source.py: the split planner *)
Section SplitFacts.

Import Source.

Lemma split_run_S (fuel : nat) (self : built) (w stop : Z) (st : split_state) :
  split_run (S fuel) self w stop st
    = match split_next self w stop st with
      | None => ([], None)
      | Some (bundle, st') =>
          let '(bundles, final) := split_run fuel self w stop st' in
          (bundle :: bundles, final)
      end.
Proof. reflexivity. Qed.

(** With a chunk size of 0 the loop never leaves its first state. *)
Lemma split_run_zero_chunk (fuel : nat) (self : built) (w stop : Z) :
  _chunk_size self = 0 ->
  0 < stop ->
  split_run fuel self w stop (0, 0)
    = (replicate fuel {| iobase.weight := w; iobase.start_position := 0;
                         iobase.stop_position := 0 |},
       Some (0, 0)).
Proof.
  intros Hchunk Hstop. induction fuel as [| fuel IH]; [reflexivity |].
  rewrite split_run_S. cbn [split_next]. rewrite Hchunk.
  destruct (Z.ltb_spec 0 stop) as [_ | Hge]; [| lia].
  change (0 + 0) with 0. rewrite IH. reflexivity.
Qed.

(** With a positive chunk size [C] the loop yields the bundles
    [[k * C, (k + 1) * C)] one after the other and ends after the first one
    that reaches the stop position. *)
Lemma split_run_chunks (self : built) (w stop : Z) (n : nat) :
  0 < _chunk_size self ->
  (Z.of_nat n - 1) * _chunk_size self < stop <= Z.of_nat n * _chunk_size self ->
  forall (m k : nat),
    (k + m = n)%nat ->
    split_run (S m) self w stop
        (Z.of_nat k * _chunk_size self, (Z.of_nat k + 1) * _chunk_size self)
      = (map (fun j : nat =>
                {| iobase.weight := w;
                   iobase.start_position := Z.of_nat j * _chunk_size self;
                   iobase.stop_position := (Z.of_nat j + 1) * _chunk_size self |})
             (seq k m),
         None).
Proof.
  intros Hchunk Hn. induction m as [| m IH]; intros k Hk.
  - simpl. destruct (Z.ltb_spec (Z.of_nat k * _chunk_size self) stop) as [Hlt | _];
      [| reflexivity].
    replace k with n in Hlt by lia. lia.
  - rewrite split_run_S. cbn [split_next].
    destruct (Z.ltb_spec (Z.of_nat k * _chunk_size self) stop) as [_ | Hge].
    + assert (Hsucc : Z.of_nat k + 1 = Z.of_nat (S k)) by lia.
      replace ((Z.of_nat k + 1) * _chunk_size self + _chunk_size self)
        with ((Z.of_nat (S k) + 1) * _chunk_size self) by lia.
      cbn [seq map]. rewrite Hsucc, (IH (S k)) by lia. reflexivity.
    + assert (Z.of_nat k <= Z.of_nat n - 1) by lia. nia.
Qed.

(** From an estimate of 10000 rows on, [split] ends: it has yielded
    ceil(T / C) bundles [[k * C, (k + 1) * C)] with [C = T // 10000], which
    follow one another without gap from 0 and reach [T]. *)
Lemma split_from_10000 (T w : Z) :
  10000 <= T ->
  let C := T / 10000 in
  let n := Z.to_nat ((T + C - 1) / C) in
  split (S n) (with_counts T) w None None
    = (map (fun j : nat =>
              {| iobase.weight := w;
                 iobase.start_position := Z.of_nat j * C;
                 iobase.stop_position := (Z.of_nat j + 1) * C |})
           (seq 0 n),
       None)
  /\ T <= Z.of_nat n * C.
Proof.
  intros HT C n.
  assert (HC : 0 < C).
  { unfold C. apply Z.div_str_pos. lia. }
  assert (Hq : (T + C - 1) / C * C <= T + C - 1 < ((T + C - 1) / C + 1) * C).
  { pose proof (Z.mul_div_le (T + C - 1) C HC).
    pose proof (Z.mul_succ_div_gt (T + C - 1) C HC). lia. }
  assert (Hq0 : 0 <= (T + C - 1) / C) by (apply Z.div_pos; lia).
  assert (Hn : Z.of_nat n = (T + C - 1) / C) by (unfold n; lia).
  split; [| rewrite Hn; lia].
  unfold split, split_start, with_counts. cbn [default _counts _chunk_size].
  fold C.
  pose proof (split_run_chunks {| _counts := T; _chunk_size := C |} w T n) as Hrun.
  cbn [_chunk_size] in Hrun.
  specialize (Hrun HC). rewrite Hn in Hrun.
  specialize (Hrun ltac:(lia) n 0%nat ltac:(lia)).
  replace (Z.of_nat 0 * C) with 0 in Hrun by lia.
  replace ((Z.of_nat 0 + 1) * C) with C in Hrun by lia.
  exact Hrun.
Qed.

(** An estimate that [_build_value] stores is positive, and every positive
    estimate can be stored: the object [split] runs on is [with_counts T]
    for some [T >= 1]. *)
Lemma build_value_counts (drv : Client.driver) (query : string)
    (config : gmap string pyval) (d d' : Client.db) (self : built) :
  _build_value drv query config d = (Ok self, d') ->
  exists T, 1 <= T /\ self = with_counts T.
Proof.
  unfold _build_value, bind, lift_result, ret.
  destruct (Client.new config) as [client | e]; [| discriminate].
  unfold Client.rough_counts_estimator, Client.with_connection, bind, lift_result.
  destruct (Client._validate_query query [Client._SELECT_STATEMENT]); [| discriminate].
  destruct (Client.connect_fails drv); [discriminate |].
  unfold Client.cur_execute, try_except, finally, Client.log, bind, ret, raise.
  destruct (Client.execute_fails drv _); cbn; [discriminate |].
  destruct (Z.leb_spec (Client.count_records
                          (Client.explain drv (Client.count_query_of query))) 0)
    as [Hle | Hgt]; [discriminate |].
  intros Heq. simplify_eq. eexists. split; [| reflexivity]. lia.
Qed.

Lemma build_value_sample :
  fst (_build_value (Samples.planner [Client.PlannerRow "SIMPLE" 5000])
         "SELECT * FROM t" Samples.exact_config [])
    = Ok (with_counts 5000).
Proof. vm_compute. reflexivity. Qed.

(** C1.  For an estimate [T] from 1 up to 9999 the chunk size [T // 10000]
    is 0 and is not clamped: however many times the generator is resumed it
    has yielded that many zero-width bundles [[0, 0)] and is still in its
    first state, so it does not end and covers no position. *)
Theorem split_below_10000_never_ends
    (T w : Z) (start_position stop_position : option Z) (fuel : nat) :
  1 <= T ->
  T < 10000 ->
  default 0 start_position = 0 ->
  default T stop_position = T ->
  split fuel (with_counts T) w start_position stop_position
    = (replicate fuel {| iobase.weight := w; iobase.start_position := 0;
                         iobase.stop_position := 0 |},
       Some (0, 0)).
Proof.
  intros Hlo Hhi Hstart Hstop. unfold split, split_start, with_counts.
  cbn [_counts _chunk_size]. rewrite Hstart, Hstop.
  rewrite (Z.div_small T 10000) by lia.
  apply split_run_zero_chunk; [reflexivity | lia].
Qed.

Lemma split_below_10000_never_ends_witness :
  split 3 (with_counts 5000) 64 None (Some 5000)
    = (replicate 3 {| iobase.weight := 64; iobase.start_position := 0;
                      iobase.stop_position := 0 |},
       Some (0, 0)).
Proof.
  apply (split_below_10000_never_ends 5000 64 None (Some 5000) 3);
    [lia | lia | reflexivity | reflexivity].
Defined.

End SplitFacts.

(** ** io.py: the read transform *)
Section ReadTransformFacts.

(** C8.  [expand] fails for every [ReadFromMySQL]: it passes seven
    positional arguments to [MySQLSource], whose [__init__] takes two, so the
    call raises [TypeError] and no source is built; with two arguments the
    constructor succeeds. *)
Theorem expand_raises_type_error :
  (forall self : IO.ReadFromMySQL.t, IO.ReadFromMySQL.expand self = Raise TypeError)
  /\ (forall query config : pyval,
        Source.__init__ [query; config]
          = Ok {| Source._query := query; Source._config := config |}).
Proof.
  split; intros; reflexivity.
Qed.

End ReadTransformFacts.

(** ** source.py: the range-tracked reader *)
Section RangeFacts.

Import Source.

Lemma py_range_length (a b : Z) : length (py_range a b) = Z.to_nat (b - a).
Proof. unfold py_range. rewrite length_map, length_seq. reflexivity. Qed.

Lemma py_range_take (a b : Z) (k : nat) :
  (k <= Z.to_nat (b - a))%nat ->
  take k (py_range a b) = py_range a (a + Z.of_nat k).
Proof.
  intros Hk. unfold py_range. rewrite <- fmap_take, take_seq.
  replace (k `min` Z.to_nat (b - a))%nat with k by lia.
  replace (Z.to_nat (a + Z.of_nat k - a)) with k by lia. reflexivity.
Qed.

Lemma py_range_lookup (a b : Z) (k : nat) :
  (k < Z.to_nat (b - a))%nat ->
  py_range a b !! k = Some (a + Z.of_nat k).
Proof.
  intros Hk. unfold py_range. rewrite list_lookup_fmap, lookup_seq_lt by lia.
  reflexivity.
Qed.

Lemma py_range_bounds (a b i : Z) : i ∈ py_range a b -> a <= i < b.
Proof.
  unfold py_range. intros Hin. apply list_elem_of_fmap in Hin as (k & -> & Hk).
  apply elem_of_seq in Hk. lia.
Qed.

Lemma claimed_block_yields_claimed (start stop : Z) (positions : list Z) :
  Forall (fun i => start <= i < stop) positions ->
  forall rows, yields_claimed start stop (claimed_block positions rows) = true.
Proof.
  induction 1 as [| i positions Hi _ IH]; intros rows; [reflexivity |].
  destruct rows as [| r rows]; [reflexivity |].
  cbn [claimed_block yields_claimed]. rewrite IH.
  destruct (Z.leb_spec start i); [| lia]. destruct (Z.ltb_spec i stop); [| lia].
  reflexivity.
Qed.

(** The [while] loop hands on the rows up to the first falsy one and never
    asks the tracker. *)
Lemma read_while_yielded (gen : list row) :
  yielded (read_while gen) = truthy_prefix gen.
Proof.
  induction gen as [| r gen IH]; [reflexivity |].
  cbn [read_while truthy_prefix truthy_object].
  destruct (truthy (PDict r)); [| reflexivity].
  cbn [yielded]. rewrite IH. reflexivity.
Qed.

Lemma read_while_no_claim (gen : list row) :
  Forall (fun e => is_claim e = false) (read_while gen).
Proof.
  induction gen as [| r gen IH]; cbn [read_while].
  - repeat constructor.
  - destruct (truthy_object (Some r));
      repeat (constructor; [reflexivity |]); [exact IH | constructor].
Qed.

Lemma yielded_app (l1 l2 : list read_event) :
  yielded (l1 ++ l2) = yielded l1 ++ yielded l2.
Proof.
  induction l1 as [| e l1 IH]; [reflexivity |].
  destruct e; cbn [app yielded]; rewrite IH; reflexivity.
Qed.

End RangeFacts.

Section ReadFacts.

Import Source Samples.

Context {T : Type} `{RangeTracker T}.

(** A run of the [for] loop that uses up its positions meets no refusal; a
    run that returns has none before its last event. *)
Lemma read_for_refusals (positions : list Z) :
  forall (gen : list row) (t : T) (events : list read_event)
         (res : option (list row * T)),
    read_for positions gen t = (events, res) ->
    match res with
    | Some _ => Forall (fun e => is_refusal e = false) events
    | None => exists init last,
        events = init ++ [last] /\ Forall (fun e => is_refusal e = false) init
    end.
Proof.
  induction positions as [| i positions IH]; intros gen t events res Hrun;
    cbn [read_for] in Hrun.
  - simplify_eq. constructor.
  - destruct gen as [| r gen]; cbn [next] in Hrun.
    { simplify_eq. exists nil, (Next None). split; [reflexivity | constructor]. }
    destruct (truthy_object (Some r)); cbn [negb] in Hrun.
    2:{ simplify_eq. exists nil, (Next (Some r)). split; [reflexivity | constructor]. }
    destruct (try_claim t i) as [[|] t']; cbn [negb] in Hrun.
    2:{ simplify_eq. exists [Next (Some r)], (TryClaim i false).
        split; [reflexivity | repeat constructor]. }
    destruct (read_for positions gen t') as [events' res'] eqn:Hrest.
    simplify_eq. specialize (IH _ _ _ _ Hrest). destruct res as [p |].
    + repeat (constructor; [reflexivity |]). exact IH.
    + destruct IH as (init & last & -> & Hinit).
      exists (Next (Some r) :: TryClaim i true :: Yield r :: init), last.
      split; [reflexivity |]. repeat (constructor; [reflexivity |]). exact Hinit.
Qed.

(** The shape of a run of the [for] loop: [k] rows pulled, claimed at the
    first [k] positions and yielded, and then either a falsy object, or a
    refused claim, or no position left. *)
Lemma read_for_shape (positions : list Z) :
  forall (gen : list row) (t : T),
  exists (k : nat) (tail : list read_event) (res : option (list row * T)),
    read_for positions gen t
      = (claimed_block (take k positions) (take k gen) ++ tail, res)
    /\ (k <= length positions)%nat
    /\ (k <= length gen)%nat
    /\ (((k < length positions)%nat
         /\ truthy_object (fst (next (drop k gen))) = false
         /\ tail = [Next (fst (next (drop k gen)))]
         /\ res = None)
        \/ ((k < length positions)%nat
            /\ (exists r i,
                  head (drop k gen) = Some r
                  /\ positions !! k = Some i
                  /\ tail = [Next (Some r); TryClaim i false])
            /\ res = None)
        \/ (k = length positions
            /\ tail = []
            /\ exists t', res = Some (drop k gen, t'))).
Proof.
  induction positions as [| i positions IH]; intros gen t; cbn [read_for].
  - exists 0%nat, nil, (Some (gen, t)). simpl. repeat split; try lia.
    right. right. eauto.
  - destruct gen as [| r gen]; cbn [next].
    { exists 0%nat, [Next None], None. simpl. repeat split; try lia.
      left. repeat split; lia. }
    destruct (truthy_object (Some r)) eqn:Htruthy; cbn [negb].
    2:{ exists 0%nat, [Next (Some r)], None. simpl. repeat split; try lia.
        left. simpl in Htruthy. rewrite Htruthy. repeat split; lia. }
    destruct (try_claim t i) as [[|] t']; cbn [negb].
    2:{ exists 0%nat, [Next (Some r); TryClaim i false], None. simpl.
        repeat split; try lia. right. left. repeat split; [lia | eauto]. }
    destruct (IH gen t') as (k & tail & res & -> & Hkp & Hkg & Hcases).
    exists (S k), tail, res. cbn [take claimed_block drop length app].
    repeat split; try lia.
    destruct Hcases
      as [(Hlt & Hf & Htail & Hres) | [(Hlt & Hex & Hres) | (Hk & Htail & Hres)]].
    + left. repeat split; [lia | assumption..].
    + right. left. repeat split; [lia | assumption..].
    + right. right. repeat split; [lia | assumption..].
Qed.

(** C3, as the code has it.  [read] pulls a row, claims the next position of
    [start, start + 1, ...] and only then yields the row; while positions of
    the range are left every row it yields comes right after a granted claim
    of a position in the range, and a falsy object pulled or a refused claim
    ends the run at once.  When the positions have run out the run goes on:
    it yields the rows that remain, up to the first falsy object, without
    asking the tracker. *)
Theorem read_claims_in_range_then_drains (gen : list row) (t : T) :
  exists (k : nat) (tail : list read_event),
    read gen t
      = claimed_block (py_range (start_position t) (start_position t + Z.of_nat k))
                      (take k gen) ++ tail
    /\ (k <= length gen)%nat
    /\ (k <= Z.to_nat (stop_position t - start_position t))%nat
    /\ yields_claimed (start_position t) (stop_position t)
         (claimed_block (py_range (start_position t) (start_position t + Z.of_nat k))
                        (take k gen)) = true
    /\ ((start_position t + Z.of_nat k < stop_position t
         /\ truthy_object (fst (next (drop k gen))) = false
         /\ tail = [Next (fst (next (drop k gen)))])
        \/ (start_position t + Z.of_nat k < stop_position t
            /\ exists r, head (drop k gen) = Some r
                 /\ tail = [Next (Some r); TryClaim (start_position t + Z.of_nat k) false])
        \/ (k = Z.to_nat (stop_position t - start_position t)
            /\ tail = read_while (drop k gen)
            /\ Forall (fun e => is_claim e = false) tail
            /\ yielded tail = truthy_prefix (drop k gen))).
Proof.
  unfold read.
  destruct (read_for_shape (py_range (start_position t) (stop_position t)) gen t)
    as (k & tail & res & -> & Hkp & Hkg & Hcases).
  rewrite py_range_length in Hkp.
  rewrite py_range_take in * by assumption.
  assert (Hblock : yields_claimed (start_position t) (stop_position t)
            (claimed_block (py_range (start_position t) (start_position t + Z.of_nat k))
                           (take k gen)) = true).
  { apply claimed_block_yields_claimed. apply Forall_forall. intros i Hi.
    apply py_range_bounds in Hi. lia. }
  destruct Hcases
    as [(Hlt & Hf & -> & ->) | [(Hlt & (r & i & Hr & Hi & ->) & ->) | (Hk & -> & t' & ->)]].
  - exists k, [Next (next (drop k gen)).1]. rewrite py_range_length in Hlt.
    repeat split; try assumption. left. repeat split; [lia | assumption].
  - rewrite py_range_length in Hlt. rewrite py_range_lookup in Hi by assumption.
    simplify_eq. exists k, [Next (Some r); TryClaim (start_position t + Z.of_nat k) false].
    repeat split; try assumption. right. left. split; [lia | eauto].
  - rewrite py_range_length in Hk. exists k, (read_while (drop k gen)).
    rewrite app_nil_r. repeat split; try assumption. right. right.
    repeat split; [assumption | apply read_while_no_claim | apply read_while_yielded].
Qed.

(** C7.  A refused claim is the last thing a run of [read] does: no event,
    and so no row for that position or a later one, comes after it, and the
    rows handed on are those yielded before it. *)
Theorem refused_claim_ends_read (gen : list row) (t : T)
    (pre post : list read_event) (i : Z) :
  read gen t = pre ++ TryClaim i false :: post ->
  post = [] /\ yielded (read gen t) = yielded pre.
Proof.
  intros Heq.
  assert (Hpost : post = []).
  { revert Heq. unfold read.
    destruct (read_for _ gen t) as [events res] eqn:Hrun.
    apply read_for_refusals in Hrun. destruct res as [[gen' t'] |].
    - intros Heq. exfalso.
      assert (Hin : TryClaim i false ∈ events ++ read_while gen').
      { rewrite Heq. set_solver. }
      apply elem_of_app in Hin as [Hin | Hin].
      + rewrite Forall_forall in Hrun. specialize (Hrun _ Hin). discriminate.
      + pose proof (read_while_no_claim gen') as Hw.
        rewrite Forall_forall in Hw. specialize (Hw _ Hin). discriminate.
    - destruct Hrun as (init & last & -> & Hinit). intros Heq.
      destruct post as [| x post] using rev_ind; [reflexivity |]. exfalso.
      change (pre ++ TryClaim i false :: post ++ [x])
        with (pre ++ (TryClaim i false :: post) ++ [x]) in Heq.
      rewrite app_assoc in Heq. apply app_inj_tail in Heq as [Heq _].
      rewrite Forall_forall in Hinit.
      specialize (Hinit (TryClaim i false)). rewrite Heq in Hinit.
      discriminate Hinit. set_solver. }
  split; [exact Hpost |].
  rewrite Heq, Hpost, yielded_app. cbn [yielded]. rewrite app_nil_r. reflexivity.
Qed.

End ReadFacts.

Section ReadSamples.

Import Source Samples.

(** C3, as stated, fails.  On the range [[0, 1)] with every claim granted and
    two rows, [read] yields the second row after the range is used up,
    without a claim. *)
Lemma read_yields_past_exhausted_range :
  read [row_1; row_2] {| start := 0; stop := 1; split_at := 1 |}
    = [Next (Some row_1); TryClaim 0 true; Yield row_1;
       Next (Some row_2); Yield row_2; Next None]
  /\ yields_claimed 0 1 (read [row_1; row_2] {| start := 0; stop := 1; split_at := 1 |})
     = false.
Proof. split; reflexivity. Qed.

Lemma refused_claim_ends_read_witness :
  (@nil read_event) = []
  /\ yielded (read [row_1; row_2; row_3] {| start := 0; stop := 3; split_at := 1 |})
     = yielded [Next (Some row_1); TryClaim 0 true; Yield row_1; Next (Some row_2)].
Proof.
  apply (refused_claim_ends_read [row_1; row_2; row_3]
           {| start := 0; stop := 3; split_at := 1 |}
           [Next (Some row_1); TryClaim 0 true; Yield row_1; Next (Some row_2)] [] 1).
  reflexivity.
Defined.

End ReadSamples.

(** * Further properties of the code *)

(** ** client.py: query validation *)
Section ValidationFacts.

Import Client Facts.

Lemma validate_query_loop_cases (query : string) (statements : list string) :
  _validate_query_loop query statements = Ok tt
  \/ _validate_query_loop query statements = Raise MySQLClientError.
Proof.
  induction statements as [| statement rest IH]; cbn [_validate_query_loop]; [by left |].
  destruct (_ && _); [by right | exact IH].
Qed.

Lemma validate_query_loop_ok (query : string) (statements : list string) :
  _validate_query_loop query statements = Ok tt
  <-> Forall (fun statement =>
                statement = "" \/ startswith (lower query) (lower statement) = true)
             statements.
Proof.
  induction statements as [| statement rest IH]; cbn [_validate_query_loop].
  - split; [constructor | reflexivity].
  - cbn [truthy]. destruct (String.eqb_spec statement "") as [-> | Hne]; cbn [negb andb].
    + rewrite IH. split; [intros Hrest; constructor; [by left | exact Hrest] |].
      intros Hall. by apply Forall_cons in Hall as [_ Hrest].
    + destruct (startswith (lower query) (lower statement)) eqn:Hstart; cbn [negb].
      * rewrite IH. split; [intros Hrest; constructor; [by right | exact Hrest] |].
        intros Hall. by apply Forall_cons in Hall as [_ Hrest].
      * split; [discriminate |]. intros Hall.
        apply Forall_cons in Hall as [[Hempty | Htrue] _]; [done | congruence].
Qed.

(** X1.  On strings of code points below 256, [_validate_query] accepts a
    query exactly when every statement of the list that is not empty is a
    prefix, letter case apart, of the query with its leading white space
    removed: the characters U+0009 to U+000D, U+001C to U+0020, U+0085 and
    U+00A0.  When it does not accept, it raises [MySQLClientError]. *)
Theorem validate_query_accepts_iff (query : string) (statements : list string) :
  (_validate_query query statements = Ok tt
   <-> Forall (fun statement =>
                 statement = ""
                 \/ startswith (lower (lstrip query)) (lower statement) = true)
              statements)
  /\ (_validate_query query statements <> Ok tt
      -> _validate_query query statements = Raise MySQLClientError).
Proof.
  unfold _validate_query. split; [apply validate_query_loop_ok |].
  destruct (validate_query_loop_cases (lstrip query) statements) as [-> | ->]; done.
Qed.

Lemma lstrip_app_space (ws query : string) :
  all_space ws = true -> lstrip (ws +:+ query) = lstrip query.
Proof.
  induction ws as [| c ws IH]; [reflexivity |]. cbn [all_space].
  intros [Hc Hws]%andb_true_iff.
  change (lstrip (String c (ws +:+ query)) = lstrip query).
  cbn [lstrip]. rewrite Hc. apply IH, Hws.
Qed.

(** X2.  On strings of code points below 256, white space in front of a
    query (any of U+0009 to U+000D, U+001C to U+0020, U+0085 and U+00A0) does
    not change what [_validate_query] answers. *)
Theorem validate_query_ignores_leading_space (ws query : string) (statements : list string) :
  all_space ws = true ->
  _validate_query (ws +:+ query) statements = _validate_query query statements.
Proof.
  intros Hws. unfold _validate_query. rewrite lstrip_app_space by exact Hws. reflexivity.
Qed.

Lemma is_space_lower (c : ascii) : is_space (lower_char c) = is_space c.
Proof.
  destruct c as [[] [] [] [] [] [] [] []]; reflexivity.
Qed.

Lemma lower_lstrip (query : string) : lower (lstrip query) = lstrip (lower query).
Proof.
  induction query as [| c query IH]; [reflexivity |].
  cbn [lstrip lower]. rewrite is_space_lower.
  destruct (is_space c); [exact IH | reflexivity].
Qed.

(** X3.  Two queries that differ in letter case only get the same answer
    from [_validate_query]. *)
Theorem validate_query_case_insensitive (query1 query2 : string) (statements : list string) :
  lower query1 = lower query2 ->
  _validate_query query1 statements = _validate_query query2 statements.
Proof.
  intros Hlower. unfold _validate_query.
  assert (Hstrip : lower (lstrip query1) = lower (lstrip query2)).
  { rewrite !lower_lstrip, Hlower. reflexivity. }
  induction statements as [| statement rest IH]; cbn [_validate_query_loop]; [reflexivity |].
  rewrite Hstrip, IH. reflexivity.
Qed.

End ValidationFacts.

(** ** client.py: the loader and the estimator, path by path *)
Section OperationFacts.

Import Client Facts.

Lemma validate_query_cases (query : string) (statements : list string) :
  _validate_query query statements = Ok tt
  \/ _validate_query query statements = Raise MySQLClientError.
Proof.
  unfold _validate_query. generalize (lstrip query). intros q.
  induction statements as [| statement rest IH]; cbn [_validate_query_loop]; [by left |].
  destruct (_ && _); [by right | exact IH].
Qed.

(** Every path of [record_loader]. *)
Lemma record_loader_table (drv : driver) (query : string) (d : db) :
  record_loader drv query d =
    match _validate_query query [_INSERT_STATEMENT] with
    | Raise _ => (Raise MySQLClientError, d)
    | Ok _ =>
        if connect_fails drv then (Raise MySQLClientError, d)
        else if execute_fails drv query
        then (Raise (if rollback_fails drv then MySQLConnectorError else MySQLClientError),
              d ++ [Connect; Cursor; Execute query; Rollback; Close])
        else if commit_fails drv
        then (Raise (if rollback_fails drv then MySQLConnectorError else MySQLClientError),
              d ++ [Connect; Cursor; Execute query; Commit; Rollback; Close])
        else (Ok tt, d ++ [Connect; Cursor; Execute query; Commit; CursorClose; Close])
    end.
Proof.
  destruct (validate_query_cases query [_INSERT_STATEMENT]) as [Hq | Hq]; rewrite Hq.
  - destruct (connect_fails drv) eqn:Hc.
    + unfold record_loader, with_connection, bind, lift_result, raise.
      rewrite Hq, Hc. reflexivity.
    + apply record_loader_run; assumption.
  - unfold record_loader, bind, lift_result. rewrite Hq. reflexivity.
Qed.

(** Every path of [rough_counts_estimator]. *)
Lemma rough_counts_estimator_table (drv : driver) (query : string) (d : db) :
  rough_counts_estimator drv query d =
    match _validate_query query [_SELECT_STATEMENT] with
    | Raise _ => (Raise MySQLClientError, d)
    | Ok _ =>
        if connect_fails drv then (Raise MySQLClientError, d)
        else if execute_fails drv (count_query_of query)
        then (Raise MySQLClientError,
              d ++ [Connect; Cursor; Execute (count_query_of query); Close])
        else
          (let total_number := count_records (explain drv (count_query_of query)) in
           if total_number <=? 0 then Raise MySQLConnectorError else Ok total_number,
           d ++ [Connect; Cursor; Execute (count_query_of query); CursorClose; Close])
    end.
Proof.
  destruct (validate_query_cases query [_SELECT_STATEMENT]) as [Hq | Hq]; rewrite Hq.
  - destruct (connect_fails drv) eqn:Hc.
    + unfold rough_counts_estimator, with_connection, bind, lift_result, raise.
      rewrite Hq, Hc. reflexivity.
    + destruct (execute_fails drv (count_query_of query)) eqn:He.
      * unfold rough_counts_estimator, with_connection, cur_execute, try_except,
          finally, bind, lift_result, log, ret, raise.
        rewrite Hq, Hc, He. cbn. rewrite <- !app_assoc. reflexivity.
      * apply rough_counts_estimator_run; assumption.
  - unfold rough_counts_estimator, bind, lift_result. rewrite Hq. reflexivity.
Qed.

Lemma one_session_intro (middle : db) :
  Connect ∉ middle -> Close ∉ middle -> one_session (Connect :: middle ++ [Close]).
Proof. intros Hc Hx. exists middle. done. Qed.

Ltac not_in_log :=
  let H := fresh in
  intros H; repeat (apply elem_of_cons in H as [H | H]; [discriminate H |]);
  by apply elem_of_nil in H.

Ltac in_log :=
  solve [repeat first [apply list_elem_of_here | apply list_elem_of_further]].

Ltac log_fact :=
  first
    [ done
    | not_in_log
    | in_log
    | let H := fresh in
      intros [H _]; revert H; not_in_log
    | let H := fresh in
      intros [_ H]; revert H; not_in_log
    | let q := fresh in
      let H := fresh in
      intros q H; first [by apply elem_of_nil in H | by apply list_elem_of_singleton in H] ].

Ltac session middle_events :=
  right; apply (one_session_intro middle_events); not_in_log.

(** X4.  Of the calls [record_loader] makes on the driver, connecting,
    executing, committing and rolling back may raise.  It returns normally
    exactly when the query is an INSERT statement and connection, execution
    and commit succeed.  The driver's error leaves it exactly when the
    execution or the commit raises and the rollback, which the handler runs
    unprotected, raises too.  In every other case it raises
    [MySQLClientError]. *)
Theorem record_loader_result (drv : driver) (query : string) (d : db) :
  (fst (record_loader drv query d) = Ok tt
   <-> _validate_query query [_INSERT_STATEMENT] = Ok tt
       /\ connect_fails drv = false
       /\ execute_fails drv query = false
       /\ commit_fails drv = false)
  /\ (fst (record_loader drv query d) = Raise MySQLConnectorError
      <-> _validate_query query [_INSERT_STATEMENT] = Ok tt
          /\ connect_fails drv = false
          /\ (execute_fails drv query = true \/ commit_fails drv = true)
          /\ rollback_fails drv = true)
  /\ (fst (record_loader drv query d) <> Ok tt ->
      fst (record_loader drv query d) <> Raise MySQLConnectorError ->
      fst (record_loader drv query d) = Raise MySQLClientError).
Proof.
  rewrite record_loader_table.
  destruct (_validate_query query [_INSERT_STATEMENT]) as [[] | e];
    [| cbn [fst]; intuition (discriminate || congruence)].
  destruct (connect_fails drv), (execute_fails drv query), (commit_fails drv),
    (rollback_fails drv); cbn [fst]; intuition (discriminate || congruence).
Qed.

(** X5.  What [record_loader] adds to the driver's log.  A normal return has
    made exactly the calls connect, cursor, execute, commit, cursor close and
    connection close.  A commit is attempted exactly when validation,
    connection and execution succeeded; a rollback is attempted exactly when
    the execution or the commit raised, and the call then does not return
    normally.  The only statement executed is the query; and either the
    driver is not touched (the query was refused or the connection did not
    open) or one connection is opened first and closed last. *)
Theorem record_loader_transaction (drv : driver) (query : string) (d : db) :
  exists ev,
    snd (record_loader drv query d) = d ++ ev
    /\ (fst (record_loader drv query d) = Ok tt ->
        ev = [Connect; Cursor; Execute query; Commit; CursorClose; Close])
    /\ (Rollback ∈ ev
        <-> _validate_query query [_INSERT_STATEMENT] = Ok tt
            /\ connect_fails drv = false
            /\ (execute_fails drv query = true \/ commit_fails drv = true))
    /\ (Commit ∈ ev
        <-> _validate_query query [_INSERT_STATEMENT] = Ok tt
            /\ connect_fails drv = false
            /\ execute_fails drv query = false)
    /\ (Rollback ∈ ev -> fst (record_loader drv query d) <> Ok tt)
    /\ (forall q, q ∈ executed ev -> q = query)
    /\ (ev = [] \/ one_session ev).
Proof.
  rewrite record_loader_table.
  destruct (_validate_query query [_INSERT_STATEMENT]) as [[] | e].
  2:{ exists []. rewrite app_nil_r. cbn [fst snd executed].
      split; [reflexivity |]. split; [discriminate |].
      split; [split; [log_fact | intros (? & _); discriminate] |].
      split; [split; [log_fact | intros (? & _); discriminate] |].
      split; [log_fact |]. split; [log_fact | by left]. }
  destruct (connect_fails drv).
  { exists []. rewrite app_nil_r. cbn [fst snd executed].
    split; [reflexivity |]. split; [discriminate |].
    split; [split; [log_fact | intros (_ & ? & _); discriminate] |].
    split; [split; [log_fact | intros (_ & ? & _); discriminate] |].
    split; [log_fact |]. split; [log_fact | by left]. }
  destruct (execute_fails drv query).
  { exists [Connect; Cursor; Execute query; Rollback; Close]. cbn [fst snd executed].
    split; [reflexivity |]. split; [discriminate |].
    split; [split; [intros _; repeat split; by left | intros _; in_log] |].
    split; [split; [log_fact | intros (_ & _ & ?); discriminate] |].
    split; [intros _; discriminate |]. split; [log_fact |].
    session [Cursor; Execute query; Rollback]. }
  destruct (commit_fails drv).
  - exists [Connect; Cursor; Execute query; Commit; Rollback; Close].
    cbn [fst snd executed].
    split; [reflexivity |]. split; [discriminate |].
    split; [split; [intros _; repeat split; by right | intros _; in_log] |].
    split; [split; [done | intros _; in_log] |].
    split; [intros _; discriminate |]. split; [log_fact |].
    session [Cursor; Execute query; Commit; Rollback].
  - exists [Connect; Cursor; Execute query; Commit; CursorClose; Close].
    cbn [fst snd executed].
    split; [reflexivity |]. split; [reflexivity |].
    split; [split; [log_fact | intros (_ & _ & [? | ?]); discriminate] |].
    split; [split; [done | intros _; in_log] |].
    split; [log_fact |]. split; [log_fact |].
    session [Cursor; Execute query; Commit; CursorClose].
Qed.

Lemma string_length_append (s1 s2 : string) :
  String.length (s1 +:+ s2) = (String.length s1 + String.length s2)%nat.
Proof.
  induction s1 as [| c s1 IH]; [reflexivity |].
  change (S (String.length (s1 +:+ s2)) = S (String.length s1 + String.length s2)).
  rewrite IH. reflexivity.
Qed.

Lemma count_query_differs (query : string) : count_query_of query <> query.
Proof.
  intros Heq. apply (f_equal String.length) in Heq.
  unfold count_query_of in Heq. rewrite !string_length_append in Heq.
  cbn [String.length] in Heq. lia.
Qed.

(** X6.  The three outcomes of [rough_counts_estimator]: it returns [n]
    exactly when validation, connection and execution succeed and the scan
    total is [n > 0]; it raises [MySQLClientError] exactly when one of the
    three fails; it raises the driver's error exactly when they succeed and
    the total is not positive. *)
Theorem estimator_result (drv : driver) (query : string) (d : db) :
  (forall n : Z,
      fst (rough_counts_estimator drv query d) = Ok n
      <-> _validate_query query [_SELECT_STATEMENT] = Ok tt
          /\ connect_fails drv = false
          /\ execute_fails drv (count_query_of query) = false
          /\ n = count_records (explain drv (count_query_of query))
          /\ 0 < n)
  /\ (fst (rough_counts_estimator drv query d) = Raise MySQLClientError
      <-> _validate_query query [_SELECT_STATEMENT] <> Ok tt
          \/ connect_fails drv = true
          \/ execute_fails drv (count_query_of query) = true)
  /\ (fst (rough_counts_estimator drv query d) = Raise MySQLConnectorError
      <-> _validate_query query [_SELECT_STATEMENT] = Ok tt
          /\ connect_fails drv = false
          /\ execute_fails drv (count_query_of query) = false
          /\ count_records (explain drv (count_query_of query)) <= 0).
Proof.
  rewrite rough_counts_estimator_table.
  destruct (_validate_query query [_SELECT_STATEMENT]) as [[] | e]; cbn [fst].
  2:{ split; [| split].
      - intros n. split; [discriminate | intros (? & _); discriminate].
      - split; [intros _; left; discriminate | reflexivity].
      - split; [discriminate | intros (? & _); discriminate]. }
  destruct (connect_fails drv); cbn [fst].
  { split; [| split].
    - intros n. split; [discriminate | intros (_ & ? & _); discriminate].
    - split; [intros _; right; left; reflexivity | reflexivity].
    - split; [discriminate | intros (_ & ? & _); discriminate]. }
  destruct (execute_fails drv (count_query_of query)); cbn [fst].
  { split; [| split].
    - intros n. split; [discriminate | intros (_ & _ & ? & _); discriminate].
    - split; [intros _; right; right; reflexivity | reflexivity].
    - split; [discriminate | intros (_ & _ & ? & _); discriminate]. }
  cbn zeta.
  destruct (Z.leb_spec (count_records (explain drv (count_query_of query))) 0)
    as [Hle | Hgt].
  - split; [| split].
    + intros n. split; [discriminate | intros (_ & _ & _ & -> & ?); lia].
    + split; [discriminate | intros [? | [? | ?]]; done].
    + split; [done | reflexivity].
  - split; [| split].
    + intros n. split.
      * intros Heq. simplify_eq. done.
      * intros (_ & _ & _ & -> & _). reflexivity.
    + split; [discriminate | intros [? | [? | ?]]; done].
    + split; [discriminate | intros (_ & _ & _ & ?); lia].
Qed.

(** X7.  [rough_counts_estimator] is read-only and never runs the query
    itself: the only statement it executes is the EXPLAIN of the wrapped
    query, it neither commits nor rolls back, and a connection it opens is
    closed last. *)
Theorem estimator_runs_only_explain (drv : driver) (query : string) (d : db) :
  exists ev,
    snd (rough_counts_estimator drv query d) = d ++ ev
    /\ (forall q, q ∈ executed ev -> q = count_query_of query)
    /\ (query ∉ executed ev)
    /\ (Commit ∉ ev) /\ (Rollback ∉ ev)
    /\ (ev = [] \/ one_session ev).
Proof.
  pose proof (count_query_differs query) as Hdiff.
  rewrite rough_counts_estimator_table.
  destruct (_validate_query query [_SELECT_STATEMENT]) as [[] | e].
  2:{ exists []. rewrite app_nil_r. cbn [snd executed].
      split; [reflexivity |]. repeat (split; [log_fact |]). by left. }
  destruct (connect_fails drv).
  { exists []. rewrite app_nil_r. cbn [snd executed].
    split; [reflexivity |]. repeat (split; [log_fact |]). by left. }
  destruct (execute_fails drv (count_query_of query)).
  - exists [Connect; Cursor; Execute (count_query_of query); Close]. cbn [snd executed].
    split; [reflexivity |]. split; [log_fact |].
    split; [intros Hin; apply list_elem_of_singleton in Hin; congruence |].
    repeat (split; [log_fact |]).
    session [Cursor; Execute (count_query_of query)].
  - exists [Connect; Cursor; Execute (count_query_of query); CursorClose; Close].
    cbn [snd executed].
    split; [reflexivity |]. split; [log_fact |].
    split; [intros Hin; apply list_elem_of_singleton in Hin; congruence |].
    repeat (split; [log_fact |]).
    session [Cursor; Execute (count_query_of query); CursorClose].
Qed.

(** X8.  A value returned by [rough_counts_estimator] is positive and is the
    [rows] value of the last planner row. *)
Theorem estimator_returns_positive_last_row (drv : driver) (query : string) (d : db) (n : Z) :
  fst (rough_counts_estimator drv query d) = Ok n ->
  0 < n
  /\ exists init last,
       explain drv (count_query_of query) = init ++ [last] /\ n = rows last.
Proof.
  rewrite rough_counts_estimator_table.
  destruct (_validate_query query [_SELECT_STATEMENT]) as [[] | e]; [| discriminate].
  destruct (connect_fails drv); [discriminate |].
  destruct (execute_fails drv (count_query_of query)); [discriminate |].
  cbn [fst]. cbn zeta.
  destruct (Z.leb_spec (count_records (explain drv (count_query_of query))) 0)
    as [Hle | Hgt]; [discriminate |].
  intros Heq. simplify_eq. split; [exact Hgt |].
  destruct (explain drv (count_query_of query)) as [| r records] using rev_ind.
  - cbn in Hgt. lia.
  - exists records, r. split; [reflexivity | apply count_records_last].
Qed.

End OperationFacts.

(** ** client.py: the record generator *)
Section GeneratorFacts.

Import Client Facts.

Variable drv : driver.
Variable fetch : string -> list Source.row.

Lemma pulls_S (n : nat) (s : Generator.st) :
  Generator.pulls drv fetch (S n) s =
    match Generator.resume drv fetch s with
    | (Ok next_object, s') =>
        match Generator.pulls drv fetch n s' with
        | (Ok rest, s'') => (Ok (next_object :: rest), s'')
        | (Raise e, s'') => (Raise e, s'')
        end
    | (Raise e, s') => (Raise e, s')
    end.
Proof.
  cbn [Generator.pulls]. unfold bind, ret.
  destruct (Generator.resume drv fetch s) as [[o | e] s']; [| reflexivity].
  destruct (Generator.pulls drv fetch n s') as [[rest | e] s'']; reflexivity.
Qed.

Lemma pulls_finished (n : nat) (d : db) :
  Generator.pulls drv fetch n (Generator.Finished, d)
    = (Ok (replicate n None), (Generator.Finished, d)).
Proof.
  induction n as [| n IH]; [reflexivity |].
  rewrite pulls_S. cbn [Generator.resume]. rewrite IH. reflexivity.
Qed.




Lemma resume_fresh_fails (query : string) (d : db) :
  Generator.starts drv query = false ->
  exists ev,
    Generator.resume drv fetch (Generator.Fresh query, d)
      = (Raise MySQLClientError, (Generator.Finished, d ++ ev))
    /\ (ev = [] \/ ev = [Connect; Cursor; Execute query; Close])
    /\ (ev = [] <-> _validate_query query [_SELECT_STATEMENT] <> Ok tt
                    \/ connect_fails drv = true).
Proof.
  unfold Generator.starts. cbn [Generator.resume].
  destruct (_validate_query query [_SELECT_STATEMENT]) as [[] | e] eqn:Hq.
  2:{ intros _. exists []. rewrite app_nil_r.
      destruct (validate_query_cases query [_SELECT_STATEMENT]) as [Hok | Herr]; [congruence |].
      rewrite Hq in Herr. simplify_eq.
      split; [reflexivity |]. split; [by left |]. split; [intros _; left; discriminate | done]. }
  destruct (connect_fails drv).
  { intros _. exists []. rewrite app_nil_r.
    split; [reflexivity |]. split; [by left |]. split; [intros _; by right | done]. }
  destruct (execute_fails drv query) eqn:He; [| discriminate].
  intros _. exists [Connect; Cursor; Execute query; Close].
  unfold cur_execute, bind, log, ret, raise. rewrite He. cbn.
  rewrite <- !app_assoc. split; [reflexivity |]. split; [by right |].
  split; [discriminate | intros [? | ?]; done].
Qed.


(** X10.  When the query is not a SELECT, the connection does not open, or
    the execution raises, the first resumption of the record generator raises
    [MySQLClientError] without yielding a record; the driver was not touched
    in the first two cases and the connection is closed in the third; the
    generator is finished and later resumptions give [None]. *)
Theorem generator_failure_is_client_error (query : string) (n : nat) (d : db) :
  Generator.starts drv query = false ->
  exists ev,
    Generator.resume drv fetch (Generator.Fresh query, d)
      = (Raise MySQLClientError, (Generator.Finished, d ++ ev))
    /\ (ev = [] \/ ev = [Connect; Cursor; Execute query; Close])
    /\ (ev = [] <-> _validate_query query [_SELECT_STATEMENT] <> Ok tt
                    \/ connect_fails drv = true)
    /\ Generator.pulls drv fetch n (Generator.Finished, d ++ ev)
       = (Ok (replicate n None), (Generator.Finished, d ++ ev)).
Proof.
  intros Hfails. destruct (resume_fresh_fails query d Hfails) as (ev & Hrun & Hev & Hiff).
  exists ev. repeat split; try assumption; try apply Hiff. apply pulls_finished.
Qed.

End GeneratorFacts.

(** ** source.py: the reader on the client *)
Section ReaderFacts.

Import Client Facts.

Variable drv : driver.
Variable fetch : string -> list Source.row.

Context {T : Type} `{RangeTracker T}.






(** X12.  When the generator cannot start, [read] raises [MySQLClientError]
    at its first pull, for an empty range too: no position is claimed, the
    tracker is as it was, no row is yielded. *)
Theorem read_on_client_fails_before_claiming (query : string) (d : db) (fuel : nat) (t : T) :
  Generator.starts drv query = false ->
  fuel <> 0%nat ->
  exists ev,
    Reader.read drv fetch fuel query d t
      = {| Reader.events := []; Reader.how := Reader.Raised MySQLClientError;
           Reader.generator := (Generator.Finished, d ++ ev); Reader.tracker := t |}
    /\ (ev = [] \/ ev = [Connect; Cursor; Execute query; Close]).
Proof.
  intros Hfails Hfuel.
  destruct (resume_fresh_fails drv fetch query d Hfails) as (ev & Hres & Hev & _).
  exists ev. split; [| exact Hev].
  unfold Reader.read. cbv zeta.
  destruct (Source.py_range (start_position t) (stop_position t)) as [| i positions].
  - cbn [Reader.read_for]. destruct fuel as [| fuel]; [done |].
    cbn [Reader.read_while]. unfold db, Generator.st in *. rewrite Hres. reflexivity.
  - cbn [Reader.read_for]. unfold db, Generator.st in *. rewrite Hres. reflexivity.
Qed.

End ReaderFacts.

(** ** source.py: the rows a read yields *)
Section ResultSetFacts.

Import Source.

Context {T : Type} `{RangeTracker T}.

Lemma claimed_block_yielded (positions : list Z) :
  forall rows : list row,
    length positions = length rows ->
    yielded (claimed_block positions rows) = rows.
Proof.
  induction positions as [| i positions IH]; intros [| r rows] Hlen;
    simplify_eq/=; [reflexivity |].
  rewrite IH by assumption. reflexivity.
Qed.

Lemma truthy_prefix_is_prefix (rows : list row) :
  exists rest, rows = truthy_prefix rows ++ rest.
Proof.
  induction rows as [| r rows [rest IH]]; [by exists [] |].
  cbn [truthy_prefix]. destruct (truthy (PDict r)).
  - exists rest. cbn [app]. rewrite <- IH. reflexivity.
  - by exists (r :: rows).
Qed.

Lemma truthy_prefix_all (rows : list row) :
  Forall (fun r => truthy (PDict r) = true) rows -> truthy_prefix rows = rows.
Proof.
  induction 1 as [| r rows Hr _ IH]; [reflexivity |].
  cbn [truthy_prefix]. rewrite Hr, IH. reflexivity.
Qed.

(** The rows a run yields, by its three endings. *)
Lemma read_yielded (gen : list row) (t : T) :
  exists (k : nat),
    (k <= length gen)%nat
    /\ ((yielded (read gen t) = take k gen
         /\ (truthy_object (fst (next (drop k gen))) = false
             \/ exists i, TryClaim i false ∈ read gen t))
        \/ yielded (read gen t) = take k gen ++ truthy_prefix (drop k gen)).
Proof.
  unfold read.
  destruct (read_for_shape (py_range (start_position t) (stop_position t)) gen t)
    as (k & tail & res & -> & Hkp & Hkg & Hcases).
  exists k. split; [exact Hkg |].
  assert (Hblock : yielded (claimed_block
                              (take k (py_range (start_position t) (stop_position t)))
                              (take k gen)) = take k gen).
  { apply claimed_block_yielded. rewrite !length_take. unfold row in *. lia. }
  destruct Hcases
    as [(_ & Hf & -> & ->) | [(_ & (r & i & _ & _ & ->) & ->) | (_ & -> & t' & ->)]].
  - left. rewrite yielded_app, Hblock. cbn [yielded]. rewrite app_nil_r.
    split; [reflexivity | by left].
  - left. rewrite yielded_app, Hblock. cbn [yielded]. rewrite app_nil_r.
    split; [reflexivity |]. right. exists i. apply elem_of_app. right.
    apply list_elem_of_further, list_elem_of_here.
  - right. rewrite app_nil_r, yielded_app, Hblock, read_while_yielded. reflexivity.
Qed.

(** X13.  The rows [read] yields are a prefix of the rows of the query, in
    their order, whatever the range of the tracker: the first row yielded is
    the first row of the query, not the row at the start position. *)
Theorem read_yields_prefix_of_result_set (gen : list row) (t : T) :
  exists rest, gen = yielded (read gen t) ++ rest.
Proof.
  destruct (read_yielded gen t) as (k & Hk & [[-> _] | ->]).
  - exists (drop k gen). symmetry. apply take_drop.
  - destruct (truthy_prefix_is_prefix (drop k gen)) as [rest Hrest].
    exists rest. rewrite <- app_assoc, <- Hrest. symmetry. apply take_drop.
Qed.

(** X14.  When no row is empty and no claim is refused, [read] yields every
    row of the query, whatever the range of the tracker. *)
Theorem read_without_refusal_yields_everything (gen : list row) (t : T) :
  Forall (fun r => truthy (PDict r) = true) gen ->
  Forall (fun e => is_refusal e = false) (read gen t) ->
  yielded (read gen t) = gen.
Proof.
  intros Htruthy Hgranted.
  destruct (read_yielded gen t) as (k & Hk & [[-> [Hfalsy | [i Hin]]] | ->]).
  - destruct (drop k gen) as [| r rest] eqn:Hdrop.
    + apply (f_equal length) in Hdrop. rewrite length_drop in Hdrop. cbn in Hdrop.
      apply take_ge. lia.
    + exfalso. cbn [next fst truthy_object] in Hfalsy.
      assert (Hin : r ∈ gen).
      { rewrite <- (take_drop k gen), Hdrop. apply elem_of_app. right.
        apply list_elem_of_here. }
      rewrite Forall_forall in Htruthy. specialize (Htruthy r Hin). congruence.
  - exfalso. rewrite Forall_forall in Hgranted. specialize (Hgranted _ Hin).
    discriminate.
  - rewrite truthy_prefix_all; [apply take_drop |].
    apply Forall_drop. exact Htruthy.
Qed.

(** X15.  On a tracker whose stop position is not above its start position
    [read] asks for no position and yields the rows up to the first empty
    one. *)
Theorem read_empty_range_yields_unclaimed (gen : list row) (t : T) :
  stop_position t <= start_position t ->
  read gen t = read_while gen
  /\ Forall (fun e => is_claim e = false) (read gen t)
  /\ yielded (read gen t) = truthy_prefix gen.
Proof.
  intros Hempty.
  assert (Hread : read gen t = read_while gen).
  { unfold read, py_range.
    replace (Z.to_nat (stop_position t - start_position t)) with 0%nat by lia.
    reflexivity. }
  rewrite Hread. split; [reflexivity |].
  split; [apply read_while_no_claim | apply read_while_yielded].
Qed.

End ResultSetFacts.

(** ** source.py: the split planner from 10000 rows on, offsets, [_build_value] *)
Section PlannerFacts.

Import Source Facts.

(** X16.  From an estimate of 10000 rows on, [split] ends after yielding [n]
    bundles [[k * C, (k + 1) * C)] with [C = T // 10000]; [n] lies between
    10000 and 19999 whatever the desired bundle size, and the last bundle
    reaches [T] and passes it by less than [C]. *)
Theorem split_ends_from_10000 (T w : Z) :
  10000 <= T ->
  exists n : nat,
    split (S n) (with_counts T) w None None
      = (map (fun j : nat =>
                {| iobase.weight := w;
                   iobase.start_position := Z.of_nat j * (T / 10000);
                   iobase.stop_position := (Z.of_nat j + 1) * (T / 10000) |})
             (seq 0 n),
         None)
    /\ 10000 <= Z.of_nat n <= 19999
    /\ T <= Z.of_nat n * (T / 10000) < T + T / 10000.
Proof.
  intros HT. pose proof (split_from_10000 T w HT) as [Hrun Hcover]. cbv zeta in *.
  set (C := T / 10000) in *. set (n := Z.to_nat ((T + C - 1) / C)) in *.
  assert (HC : 0 < C) by (unfold C; apply Z.div_str_pos; lia).
  assert (HTC : 10000 * C <= T < 10000 * C + 10000).
  { pose proof (Z.mul_div_le T 10000 ltac:(lia)).
    pose proof (Z.mul_succ_div_gt T 10000 ltac:(lia)). unfold C. lia. }
  assert (Hq : (T + C - 1) / C * C <= T + C - 1 < ((T + C - 1) / C + 1) * C).
  { pose proof (Z.mul_div_le (T + C - 1) C HC).
    pose proof (Z.mul_succ_div_gt (T + C - 1) C HC). lia. }
  assert (Hq0 : 0 <= (T + C - 1) / C) by (apply Z.div_pos; lia).
  assert (Hn : Z.of_nat n = (T + C - 1) / C) by (unfold n; lia).
  exists n. split; [exact Hrun |]. rewrite Hn. split; [nia | lia].
Qed.

(** X17.  A start position given to [split] sets the start of the first
    bundle only: the first bundle is [[start, C)] and the following ones are
    [[k * C, (k + 1) * C)] from [k = 1] on, as without a start position. *)
Theorem split_start_offset (self : built) (w s stop : Z) (n : nat) :
  0 < _chunk_size self ->
  s < stop ->
  (1 <= n)%nat ->
  (Z.of_nat n - 1) * _chunk_size self < stop <= Z.of_nat n * _chunk_size self ->
  split (S n) self w (Some s) (Some stop)
    = ({| iobase.weight := w; iobase.start_position := s;
          iobase.stop_position := _chunk_size self |}
       :: map (fun j : nat =>
                 {| iobase.weight := w;
                    iobase.start_position := Z.of_nat j * _chunk_size self;
                    iobase.stop_position := (Z.of_nat j + 1) * _chunk_size self |})
              (seq 1 (n - 1)),
       None).
Proof.
  intros HC Hs Hn Hstop. unfold split, split_start. cbn [from_option id].
  rewrite split_run_S. cbn [split_next].
  destruct (Z.ltb_spec s stop) as [_ | Hge]; [| lia].
  pose proof (split_run_chunks self w stop n HC Hstop (n - 1) 1 ltac:(lia)) as Hrun.
  replace (Z.of_nat 1 * _chunk_size self) with (_chunk_size self) in Hrun by lia.
  replace ((Z.of_nat 1 + 1) * _chunk_size self)
    with (_chunk_size self + _chunk_size self) in Hrun by lia.
  replace (S (n - 1)) with n in Hrun by lia.
  rewrite Hrun. reflexivity.
Qed.

(** A run of [_build_value] that succeeds: the configuration has the required
    keys, the estimate is positive, and one EXPLAIN has been executed on a
    connection that is closed again. *)
Lemma build_value_success (drv : Client.driver) (query : string)
    (config : gmap string pyval) (d d' : Client.db) (self : built) :
  _build_value drv query config d = (Ok self, d') ->
  dom config = Client.required_keys
  /\ 1 <= _counts self
  /\ _chunk_size self = _counts self / 10000
  /\ d' = d ++ [Client.Connect; Client.Cursor;
                Client.Execute (Client.count_query_of query);
                Client.CursorClose; Client.Close].
Proof.
  intros Hrun.
  destruct (build_value_counts drv query config d d' self Hrun) as (T & HT & ->).
  cbn [_counts _chunk_size with_counts].
  destruct (validate_config_cases config) as [[Hd Hn] | [_ Hn]].
  2:{ unfold _build_value, bind, lift_result in Hrun. rewrite Hn in Hrun. discriminate. }
  split; [exact Hd |]. split; [exact HT |]. split; [reflexivity |].
  unfold _build_value, bind, lift_result, ret in Hrun. rewrite Hn in Hrun.
  rewrite rough_counts_estimator_table in Hrun.
  destruct (Client._validate_query query [Client._SELECT_STATEMENT]); [| discriminate].
  destruct (Client.connect_fails drv); [discriminate |].
  destruct (Client.execute_fails drv _); [discriminate |].
  cbn zeta in Hrun. destruct (_ <=? 0); simplify_eq. reflexivity.
Qed.

(** X18.  [_build_value] checks the configuration before it touches the
    database: with a wrong key set it raises [MySQLClientError] and the log is
    unchanged.  When it succeeds the estimate is at least 1, the chunk size
    is the estimate divided by 10000, which is 0 exactly below 10000, and one
    EXPLAIN has been executed on a connection that is closed again. *)
Theorem build_value_checks_config_first (drv : Client.driver) (query : string)
    (config : gmap string pyval) (d : Client.db) :
  (dom config <> Client.required_keys ->
   _build_value drv query config d = (Raise MySQLClientError, d))
  /\ (forall self d',
        _build_value drv query config d = (Ok self, d') ->
        dom config = Client.required_keys
        /\ 1 <= _counts self
        /\ _chunk_size self = _counts self / 10000
        /\ (_chunk_size self = 0 <-> _counts self < 10000)
        /\ d' = d ++ [Client.Connect; Client.Cursor;
                      Client.Execute (Client.count_query_of query);
                      Client.CursorClose; Client.Close]).
Proof.
  split.
  - intros Hdom. unfold _build_value, bind, lift_result.
    destruct (validate_config_cases config) as [[Hd _] | [_ Hn]]; [done |].
    rewrite Hn. reflexivity.
  - intros self d' Hrun.
    destruct (build_value_success drv query config d d' self Hrun)
      as (Hd & Hpos & Hchunk & Hlog).
    split; [exact Hd |]. split; [exact Hpos |]. split; [exact Hchunk |].
    split; [| exact Hlog]. rewrite Hchunk. split; intros Hz.
    + destruct (Z.lt_ge_cases (_counts self) 10000) as [Hlt | Hge]; [exact Hlt |].
      pose proof (Z.div_str_pos (_counts self) 10000 ltac:(lia)). lia.
    + apply Z.div_small. lia.
Qed.

End PlannerFacts.

(** ** source.py: [get_range_tracker] and [estimate_size] *)
Section TrackerFacts.

Import Source Facts.

(** X19.  When [get_range_tracker] succeeds, the bounds it hands to the
    tracker are the given ones, 0 for a missing start and the estimate that
    [estimate_size] reports for a missing stop; the estimate is at least 1,
    so the default range is not empty; and the call has executed one more
    EXPLAIN. *)
Theorem get_range_tracker_range (drv : Client.driver) (query : string)
    (config : gmap string pyval) (start_position stop_position : option Z)
    (d d' : Client.db) (self : built) (range : Z * Z) :
  Reader.get_range_tracker drv query config start_position stop_position d
    = (Ok (self, range), d') ->
  range = (default 0 start_position, default (Reader.estimate_size self) stop_position)
  /\ 1 <= Reader.estimate_size self
  /\ (start_position = None -> stop_position = None -> fst range < snd range)
  /\ executed d' = executed d ++ [Client.count_query_of query].
Proof.
  unfold Reader.get_range_tracker, bind, ret.
  destruct (_build_value drv query config d) as [[built_self | e] d1] eqn:Hbuild;
    [| discriminate].
  destruct (build_value_success drv query config d d1 built_self Hbuild)
    as (_ & Hpos & _ & Hlog).
  intros Heq. simplify_eq.
  unfold Reader.estimate_size. split; [reflexivity |]. split; [exact Hpos |].
  split; [intros -> ->; cbn; lia |].
  clear. induction d as [| e d IH]; [reflexivity |].
  destruct e; cbn [app executed]; rewrite IH; reflexivity.
Qed.

End TrackerFacts.

(** ** io.py: bundles of the batch writer *)
Section BundleFacts.

Import IO.WriteToMySQLFn Facts.

(** X20.  [start_bundle] always succeeds, on the five-key configuration of
    the DoFn, and leaves an empty batch and no statement; [finish_bundle]
    right after it returns normally without calling the loader. *)
Theorem empty_bundle_finishes (loader : list pyval -> M Client.db unit)
    (host user password port : pyval) (database table : string)
    (batch_size : Z) (upsert : bool) (d : Client.db) :
  exists self,
    start_bundle host user password port database table batch_size upsert = Ok self
    /\ _values_batch self = []
    /\ query self = None
    /\ finish_bundle loader (self, d) = (Ok tt, (self, d)).
Proof.
  eexists. split; [apply start_bundle_ok |]. split; [reflexivity |].
  split; [reflexivity |]. rewrite finish_bundle_run. reflexivity.
Qed.

Lemma feed_on_client (drv : Client.driver) (elements : list Source.row) :
  forall (self : t) (d : Client.db),
    (_values_batch self <> [] -> is_Some (query self)) ->
    (exists self',
        feed (Client.record_loader_call drv) elements (self, d) = (Ok tt, (self', d))
        /\ _values_batch self' = _values_batch self ++ map (map snd) elements
        /\ (_values_batch self' <> [] -> is_Some (query self')))
    \/ (exists self',
          feed (Client.record_loader_call drv) elements (self, d)
            = (Raise TypeError, (self', d))
          /\ elements <> []).
Proof.
  induction elements as [| e elements IH]; intros self d Hinv.
  - left. exists self. cbn [feed map]. rewrite app_nil_r. done.
  - cbn [feed]. unfold bind. rewrite process_run. cbn zeta.
    destruct (_ >=? _).
    + rewrite record_loader_call_arity by (cbn; lia). right. eexists. done.
    + destruct (IH (appended self e) d) as [(self' & Hrun & Hb & Hq) | (self' & Hrun & _)].
      { intros _. cbn. eauto. }
      * left. exists self'. rewrite Hrun. split; [reflexivity |].
        split; [| exact Hq]. rewrite Hb. cbn. rewrite <- app_assoc. reflexivity.
      * right. exists self'. rewrite Hrun. done.
Qed.

(** X21.  With the repository's client a bundle never touches the driver:
    a bundle without rows finishes normally, and every other bundle ends in
    [TypeError], at the row that fills the batch or at [finish_bundle]. *)
Theorem writer_never_reaches_driver (drv : Client.driver) (self : t)
    (elements : list Source.row) (d : Client.db) :
  _values_batch self = [] ->
  snd (snd (bind (feed (Client.record_loader_call drv) elements)
                 (fun _ => finish_bundle (Client.record_loader_call drv)) (self, d))) = d
  /\ (elements = [] ->
      fst (bind (feed (Client.record_loader_call drv) elements)
                (fun _ => finish_bundle (Client.record_loader_call drv)) (self, d)) = Ok tt)
  /\ (elements <> [] ->
      fst (bind (feed (Client.record_loader_call drv) elements)
                (fun _ => finish_bundle (Client.record_loader_call drv)) (self, d))
        = Raise TypeError).
Proof.
  intros Hempty. unfold bind.
  destruct (feed_on_client drv elements self d) as [(self' & -> & Hb & Hq) | (self' & -> & Hne)].
  { rewrite Hempty. done. }
  - rewrite Hempty in Hb. cbn [app] in Hb. rewrite finish_bundle_run.
    destruct elements as [| e elements].
    + cbn in Hb. rewrite Hb. done.
    + destruct (_values_batch self') as [| v b] eqn:Hvb; [discriminate |].
      destruct (Hq ltac:(done)) as [q ->].
      rewrite record_loader_call_arity by (cbn; lia). done.
  - done.
Qed.

(** X22.  For any loader, after rows that were all processed without an
    exception the batch holds fewer value-tuples than the batch size, and the
    batch size is unchanged. *)
Theorem feed_keeps_batch_below_threshold (loader : list pyval -> M Client.db unit)
    (elements : list Source.row) :
  forall (self self' : t) (d d' : Client.db),
    feed loader elements (self, d) = (Ok tt, (self', d')) ->
    1 <= _batch_size self ->
    Z.of_nat (length (_values_batch self)) < _batch_size self ->
    Z.of_nat (length (_values_batch self')) < _batch_size self
    /\ _batch_size self' = _batch_size self.
Proof.
  induction elements as [| e elements IH]; intros self self' d d' Hrun Hpos Hlt.
  - cbn [feed] in Hrun. unfold ret in Hrun. simplify_eq. split; [exact Hlt | reflexivity].
  - cbn [feed] in Hrun. unfold bind in Hrun. rewrite process_run in Hrun. cbn zeta in Hrun.
    assert (Hlen : length (_values_batch (appended self e))
                   = S (length (_values_batch self))).
    { cbn. rewrite length_app. cbn. lia. }
    destruct (Z.geb_spec (Z.of_nat (length (_values_batch (appended self e))))
                (_batch_size self)) as [Hge | Hbelow].
    + destruct (loader _ d) as [[[] | ex] d1]; [| discriminate].
      apply IH in Hrun; [exact Hrun | exact Hpos | cbn; lia].
    + apply IH in Hrun; [exact Hrun | exact Hpos | cbn [appended set_values_batch set_query _batch_size]; lia ].
Qed.

End BundleFacts.

(** ** io.py: the statement and the batch *)
Section BuilderFacts.

Import IO.WriteToMySQLFn Facts.

(** X23.  Every statement [process] builds is accepted as an INSERT
    statement by [record_loader], which therefore returns normally on it
    exactly when the connection opens and neither the execution nor the
    commit raises. *)
Theorem built_statement_passes_validation (self : t) (columns : list string)
    (values : list pyval) :
  Client._validate_query (build_query self columns values) [Client._INSERT_STATEMENT]
    = Ok tt
  /\ (forall (drv : Client.driver) (d : Client.db),
        fst (Client.record_loader drv (build_query self columns values) d) = Ok tt
        <-> Client.connect_fails drv = false
            /\ Client.execute_fails drv (build_query self columns values) = false
            /\ Client.commit_fails drv = false).
Proof.
  assert (Hvalid : Client._validate_query (build_query self columns values)
                     [Client._INSERT_STATEMENT] = Ok tt).
  { unfold build_query. destruct (do_upsert self); reflexivity. }
  split; [exact Hvalid |]. intros drv d. rewrite record_loader_table, Hvalid.
  destruct (Client.connect_fails drv), (Client.execute_fails drv _),
    (Client.commit_fails drv), (Client.rollback_fails drv); cbn [fst];
    intuition (discriminate || congruence).
Qed.

Lemma concat_empty_cons (x : string) (l : list string) :
  String.concat "" (x :: l) = x +:+ String.concat "" l.
Proof.
  destruct l as [| y l]; cbn [String.concat]; [| reflexivity].
  induction x as [| c x IH]; [reflexivity |].
  change (String c x = String c (x +:+ "")). rewrite <- IH. reflexivity.
Qed.

Lemma placeholders_joined (n : nat) :
  "%s" +:+ str_repeat ",%s" (Z.of_nat n - 1)
    = String.concat "," (replicate (Nat.max 1 n) "%s").
Proof.
  unfold str_repeat. destruct n as [| m]; [reflexivity |].
  replace (Z.to_nat (Z.of_nat (S m) - 1)) with m by lia.
  replace (Nat.max 1 (S m)) with (S m) by lia.
  induction m as [| k IH]; [reflexivity |].
  cbn [replicate]. rewrite concat_empty_cons.
  change ("%s" +:+ "," +:+ ("%s" +:+ String.concat "" (replicate k ",%s"))
          = String.concat "," ("%s" :: replicate (S k) "%s")).
  rewrite IH. reflexivity.
Qed.

(** X24.  Without upsert the statement is
    [INSERT INTO db.table (columns) VALUES (placeholders)], the columns joined
    by a comma and a space and the placeholders being one [%s] per value,
    joined by commas, and one [%s] for a row without values. *)
Theorem insert_statement_shape (self : t) (columns : list string) (values : list pyval) :
  do_upsert self = false ->
  build_query self columns values
    = "INSERT INTO " +:+ _database self +:+ "." +:+ _table self
        +:+ " (" +:+ String.concat ", " columns +:+ ") VALUES ("
        +:+ String.concat "," (replicate (Nat.max 1 (length values)) "%s") +:+ ")".
Proof.
  intros Hupsert. unfold build_query. rewrite Hupsert, placeholders_joined. reflexivity.
Qed.

(** X25.  Rows that do not fill the batch are only accumulated, for any
    loader: the driver's log is unchanged, the value-tuples are appended in
    the order of the rows, and the statement kept is that of the last row. *)
Theorem feed_below_threshold_accumulates (loader : list pyval -> M Client.db unit)
    (elements : list Source.row) :
  forall (self : t) (d : Client.db),
    Z.of_nat (length (_values_batch self) + length elements) < _batch_size self ->
    exists self',
      feed loader elements (self, d) = (Ok tt, (self', d))
      /\ _values_batch self' = _values_batch self ++ map (map snd) elements
      /\ query self'
         = match last elements with
           | Some element => Some (build_query self (map fst element) (map snd element))
           | None => query self
           end.
Proof.
  induction elements as [| e elements IH]; intros self d Hlt.
  - exists self. cbn [feed map last]. rewrite app_nil_r. done.
  - cbn [feed]. unfold bind. rewrite process_run. cbn zeta.
    assert (Hlen : length (_values_batch (appended self e))
                   = S (length (_values_batch self))).
    { cbn. rewrite length_app. cbn. lia. }
    cbn [length] in Hlt.
    destruct (Z.geb_spec (Z.of_nat (length (_values_batch (appended self e))))
                (_batch_size self)) as [Hge | _]; [lia |].
    destruct (IH (appended self e) d) as (self' & Hrun & Hb & Hq).
    { rewrite Hlen. cbn [appended set_values_batch set_query _batch_size]. lia. }
    exists self'. split; [exact Hrun |]. split.
    + rewrite Hb. cbn. rewrite <- app_assoc. reflexivity.
    + rewrite Hq, last_cons. destruct (last elements); reflexivity.
Qed.

End BuilderFacts.

(** ** Runs on sample inputs *)
Section SampleRuns.

Import Client Source Samples Facts.

Lemma validate_query_accepts_iff_witness :
  _validate_query "   select * from t" [_SELECT_STATEMENT] = Ok tt
  /\ _validate_query (String "160"%char "select 1") [_SELECT_STATEMENT] = Ok tt
  /\ _validate_query "update t set x=1" [_SELECT_STATEMENT] = Raise MySQLClientError.
Proof.
  split; [| split].
  - apply (proj1 (validate_query_accepts_iff "   select * from t" [_SELECT_STATEMENT])).
    constructor; [right; reflexivity | constructor].
  - apply (proj1 (validate_query_accepts_iff (String "160"%char "select 1")
                    [_SELECT_STATEMENT])).
    constructor; [right; reflexivity | constructor].
  - apply (proj2 (validate_query_accepts_iff "update t set x=1" [_SELECT_STATEMENT])).
    vm_compute. discriminate.
Defined.

Lemma validate_query_ignores_leading_space_witness :
  _validate_query (String "160"%char (String "133"%char " ") +:+ "insert into t values (1)")
      [_INSERT_STATEMENT]
    = _validate_query "insert into t values (1)" [_INSERT_STATEMENT].
Proof.
  apply (validate_query_ignores_leading_space
           (String "160"%char (String "133"%char " ")) "insert into t values (1)"
           [_INSERT_STATEMENT]).
  reflexivity.
Defined.

Lemma validate_query_case_insensitive_witness :
  _validate_query "SeLeCt 1" [_SELECT_STATEMENT]
    = _validate_query "select 1" [_SELECT_STATEMENT].
Proof.
  apply (validate_query_case_insensitive "SeLeCt 1" "select 1" [_SELECT_STATEMENT]).
  reflexivity.
Defined.

Lemma record_loader_result_witness :
  fst (record_loader rollback_failing "INSERT INTO t VALUES (1)" [])
    = Raise MySQLConnectorError
  /\ fst (record_loader commit_failing "INSERT INTO t VALUES (1)" [])
     = Raise MySQLClientError
  /\ fst (record_loader (planner []) "INSERT INTO t VALUES (1)" []) = Ok tt.
Proof.
  split; [| split].
  - apply (proj2 (proj1 (proj2
             (record_loader_result rollback_failing "INSERT INTO t VALUES (1)" [])))).
    split; [reflexivity | split; [reflexivity | split; [left |]; reflexivity]].
  - apply (proj2 (proj2
             (record_loader_result commit_failing "INSERT INTO t VALUES (1)" [])));
      vm_compute; discriminate.
  - apply (proj2 (proj1
             (record_loader_result (planner []) "INSERT INTO t VALUES (1)" []))).
    split; [reflexivity | split; [reflexivity | split; reflexivity]].
Defined.

Lemma estimator_returns_positive_last_row_witness :
  0 < 42
  /\ exists init last,
       explain (planner [derived_500; primary_42]) (count_query_of "SELECT * FROM t")
         = init ++ [last]
       /\ 42 = rows last.
Proof.
  apply (estimator_returns_positive_last_row
           (planner [derived_500; primary_42]) "SELECT * FROM t" [] 42).
  vm_compute. reflexivity.
Defined.


Lemma generator_failure_is_client_error_witness :
  exists ev,
    Generator.resume failing users_table (Generator.Fresh "SELECT * FROM users", [])
      = (Raise MySQLClientError, (Generator.Finished, [] ++ ev))
    /\ (ev = [] \/ ev = [Connect; Cursor; Execute "SELECT * FROM users"; Close])
    /\ (ev = [] <-> _validate_query "SELECT * FROM users" [_SELECT_STATEMENT] <> Ok tt
                    \/ connect_fails failing = true)
    /\ Generator.pulls failing users_table 2 (Generator.Finished, [] ++ ev)
       = (Ok (replicate 2 None), (Generator.Finished, [] ++ ev)).
Proof.
  apply (generator_failure_is_client_error failing users_table "SELECT * FROM users" 2 []).
  vm_compute. reflexivity.
Defined.


(** A refused claim: [read] returns with the generator suspended, and the
    generator's finalisation closes the connection. *)
Example read_refused_claim_closes_connection :
  Reader.generator (Reader.read (planner []) users_table 4 "SELECT * FROM users" []
                      {| start := 0; stop := 2; split_at := 1 |})
    = (Generator.Finished, [Connect; Cursor; Execute "SELECT * FROM users"; Close]).
Proof. reflexivity. Qed.

Lemma read_on_client_fails_before_claiming_witness :
  exists ev,
    Reader.read failing users_table 4 "SELECT * FROM users" []
        {| start := 0; stop := 2; split_at := 2 |}
      = {| Reader.events := []; Reader.how := Reader.Raised MySQLClientError;
           Reader.generator := (Generator.Finished, [] ++ ev);
           Reader.tracker := {| start := 0; stop := 2; split_at := 2 |} |}
    /\ (ev = [] \/ ev = [Connect; Cursor; Execute "SELECT * FROM users"; Close]).
Proof.
  apply (read_on_client_fails_before_claiming failing users_table "SELECT * FROM users" [] 4
           {| start := 0; stop := 2; split_at := 2 |}).
  - vm_compute. reflexivity.
  - discriminate.
Defined.

Lemma read_without_refusal_yields_everything_witness :
  yielded (read [row_1; row_2; row_3] {| start := 1; stop := 2; split_at := 2 |})
    = [row_1; row_2; row_3].
Proof.
  apply (read_without_refusal_yields_everything [row_1; row_2; row_3]
           {| start := 1; stop := 2; split_at := 2 |}).
  - repeat constructor.
  - vm_compute. repeat constructor.
Defined.

Lemma read_empty_range_yields_unclaimed_witness :
  read [row_1; row_2] {| start := 5; stop := 5; split_at := 5 |} = read_while [row_1; row_2]
  /\ Forall (fun e => is_claim e = false)
       (read [row_1; row_2] {| start := 5; stop := 5; split_at := 5 |})
  /\ yielded (read [row_1; row_2] {| start := 5; stop := 5; split_at := 5 |})
     = truthy_prefix [row_1; row_2].
Proof.
  apply (read_empty_range_yields_unclaimed [row_1; row_2]
           {| start := 5; stop := 5; split_at := 5 |}).
  cbn. lia.
Defined.

Lemma split_ends_from_10000_witness :
  exists n : nat,
    split (S n) (with_counts 25001) 64 None None
      = (map (fun j : nat =>
                {| iobase.weight := 64;
                   iobase.start_position := Z.of_nat j * (25001 / 10000);
                   iobase.stop_position := (Z.of_nat j + 1) * (25001 / 10000) |})
             (seq 0 n),
         None)
    /\ 10000 <= Z.of_nat n <= 19999
    /\ 25001 <= Z.of_nat n * (25001 / 10000) < 25001 + 25001 / 10000.
Proof.
  apply (split_ends_from_10000 25001 64). lia.
Defined.

Lemma split_start_offset_witness :
  split (S 4) (with_counts 30000) 64 (Some 7) (Some 10)
    = ({| iobase.weight := 64; iobase.start_position := 7;
          iobase.stop_position := _chunk_size (with_counts 30000) |}
       :: map (fun j : nat =>
                 {| iobase.weight := 64;
                    iobase.start_position := Z.of_nat j * _chunk_size (with_counts 30000);
                    iobase.stop_position :=
                      (Z.of_nat j + 1) * _chunk_size (with_counts 30000) |})
              (seq 1 (4 - 1)),
       None).
Proof.
  apply (split_start_offset (with_counts 30000) 64 7 10 4).
  - vm_compute. reflexivity.
  - lia.
  - lia.
  - vm_compute. split; [reflexivity | discriminate].
Defined.

Lemma get_range_tracker_range_witness :
  (0, 5000) = (default 0 None, default (Reader.estimate_size (with_counts 5000)) None)
  /\ 1 <= Reader.estimate_size (with_counts 5000)
  /\ (@None Z = None -> @None Z = None -> fst (0, 5000) < snd (0, 5000))
  /\ executed [Connect; Cursor; Execute (count_query_of "SELECT * FROM t");
               CursorClose; Close]
     = executed [] ++ [count_query_of "SELECT * FROM t"].
Proof.
  apply (get_range_tracker_range (planner [PlannerRow "SIMPLE" 5000]) "SELECT * FROM t"
           exact_config None None []
           [Connect; Cursor; Execute (count_query_of "SELECT * FROM t"); CursorClose; Close]
           (with_counts 5000) (0, 5000)).
  vm_compute. reflexivity.
Defined.

End SampleRuns.

Section SampleBundles.

Import IO.WriteToMySQLFn Samples Facts.

Lemma writer_never_reaches_driver_witness :
  snd (snd (bind (feed (Client.record_loader_call (planner [])) [row_1])
                 (fun _ => finish_bundle (Client.record_loader_call (planner [])))
                 (writer 2 false, []))) = []
  /\ ([row_1] = [] ->
      fst (bind (feed (Client.record_loader_call (planner [])) [row_1])
                (fun _ => finish_bundle (Client.record_loader_call (planner [])))
                (writer 2 false, [])) = Ok tt)
  /\ ([row_1] <> [] ->
      fst (bind (feed (Client.record_loader_call (planner [])) [row_1])
                (fun _ => finish_bundle (Client.record_loader_call (planner [])))
                (writer 2 false, []))
        = Raise TypeError).
Proof.
  apply (writer_never_reaches_driver (planner []) (writer 2 false) [row_1] []).
  reflexivity.
Defined.

Lemma feed_keeps_batch_below_threshold_witness :
  Z.of_nat (length (_values_batch (appended (writer 2 false) row_1)))
    < _batch_size (writer 2 false)
  /\ _batch_size (appended (writer 2 false) row_1) = _batch_size (writer 2 false).
Proof.
  apply (feed_keeps_batch_below_threshold (Client.record_loader_call (planner []))
           [row_1] (writer 2 false) (appended (writer 2 false) row_1) [] []).
  - reflexivity.
  - cbn. lia.
  - cbn. lia.
Defined.

Lemma insert_statement_shape_witness :
  build_query (writer 2 false) [] []
    = "INSERT INTO " +:+ _database (writer 2 false) +:+ "." +:+ _table (writer 2 false)
        +:+ " (" +:+ String.concat ", " [] +:+ ") VALUES ("
        +:+ String.concat "," (replicate (Nat.max 1 (length (@nil pyval))) "%s") +:+ ")".
Proof.
  apply (insert_statement_shape (writer 2 false) [] []). reflexivity.
Defined.

Lemma feed_below_threshold_accumulates_witness :
  exists self',
    feed (Client.record_loader_call (planner [])) [row_1; row_2] (writer 5 true, [])
      = (Ok tt, (self', []))
    /\ _values_batch self' = _values_batch (writer 5 true) ++ map (map snd) [row_1; row_2]
    /\ query self'
       = match last [row_1; row_2] with
         | Some element =>
             Some (build_query (writer 5 true) (map fst element) (map snd element))
         | None => query (writer 5 true)
         end.
Proof.
  apply (feed_below_threshold_accumulates (Client.record_loader_call (planner []))
           [row_1; row_2] (writer 5 true) []).
  cbn. lia.
Defined.

End SampleBundles.
